(** * neurods: a shallow embedding of [neurods/io.py] and [neurods/utils.py]

    The Python functions are embedded as Rocq functions.  Exceptions are an
    explicit result type, the file system and the network are an explicit
    world that is threaded through the effectful functions, and the list
    iterator of [strip_answers] is an index into the (mutated) list. *)

From Stdlib Require Import String Ascii ZArith Lia.
From stdpp Require Import base option list strings gmap.

Local Open Scope string_scope.
Local Open Scope list_scope.

(** ** Exceptions and results *)

Inductive exn : Type :=
| ValueError (msg : string)
| IndexError
| FileNotFoundError (path : string)
| FileExistsError (path : string)
| NotADirectoryError (path : string)
| IsADirectoryError (path : string)
| ShutilError (msg : string)
| NotJSONError (path : string)
| BadZipFile
| URLError (url : string).

Inductive result (A : Type) : Type :=
| Ok (a : A)
| Raise (e : exn).
Arguments Ok {A} a.
Arguments Raise {A} e.

Definition rbind {A B} (r : result A) (k : A -> result B) : result B :=
  match r with Ok a => k a | Raise e => Raise e end.

(** ** Python [str] primitives *)

Module PyStr.

Definition nl : string := String (ascii_of_nat 10) "".

(** [s.startswith(p)] *)
Fixpoint startswith (p s : string) : bool :=
  match p, s with
  | EmptyString, _ => true
  | String a p', String b s' => Ascii.eqb a b && startswith p' s'
  | String _ _, EmptyString => false
  end.

(** [s.find(sub)]: index of the first occurrence, [None] for [-1]. *)
Fixpoint find (sub s : string) : option nat :=
  if startswith sub s then Some 0
  else match s with
       | EmptyString => None
       | String _ s' => S <$> find sub s'
       end.

(** [sub in s] *)
Definition contains (sub s : string) : bool :=
  match find sub s with Some _ => true | None => false end.

(** [s[:n]] *)
Definition take (n : nat) (s : string) : string := substring 0 n s.

(** [s[n:]] *)
Fixpoint drop (n : nat) (s : string) : string :=
  match n, s with
  | S k, String _ s' => drop k s'
  | _, _ => s
  end.

(** [s.replace(old, new)] for a non-empty [old]: the occurrences are
    found left to right and do not overlap; [skip] counts the characters
    of a matched occurrence that are still to be passed over. *)
Fixpoint replace_aux (old new : string) (skip : nat) (s : string) : string :=
  match s with
  | EmptyString => EmptyString
  | String c s' =>
      match skip with
      | S k => replace_aux old new k s'
      | O => if startswith old s
             then new +:+ replace_aux old new (String.length old - 1) s'
             else String c (replace_aux old new 0 s')
      end
  end.

Definition replace (old new s : string) : string := replace_aux old new 0 s.

(** [s.split(sep)] for a non-empty [sep]; the result is never empty. *)
Fixpoint split_aux (sep : string) (skip : nat) (s : string) : list string :=
  match s with
  | EmptyString => [EmptyString]
  | String c s' =>
      match skip with
      | S k => split_aux sep k s'
      | O => if startswith sep s
             then EmptyString :: split_aux sep (String.length sep - 1) s'
             else match split_aux sep 0 s' with
                  | [] => [String c EmptyString]
                  | h :: t => String c h :: t
                  end
      end
  end.

Definition split (sep s : string) : list string := split_aux sep 0 s.

(** [sep.join(l)] *)
Fixpoint join (sep : string) (l : list string) : string :=
  match l with
  | [] => EmptyString
  | [x] => x
  | x :: l' => x +:+ sep +:+ join sep l'
  end.

(** [s.rfind(sub) + 1] for a one-character [sub]: the length of the
    prefix that ends with the last occurrence, [0] when there is none. *)
Fixpoint rfind_succ (c : ascii) (s : string) : nat :=
  match s with
  | EmptyString => 0
  | String a s' =>
      match rfind_succ c s' with
      | S k => S (S k)
      | O => if Ascii.eqb a c then 1 else 0
      end
  end.

(** [s.rstrip(c)] for a one-character set. *)
Fixpoint rstrip (c : ascii) (s : string) : string :=
  match s with
  | EmptyString => EmptyString
  | String a s' =>
      match rstrip c s' with
      | EmptyString => if Ascii.eqb a c then EmptyString else String a EmptyString
      | r => String a r
      end
  end.

(** [l.index(x)]: position of the first element equal to [x]. *)
Fixpoint index (x : string) (l : list string) : option nat :=
  match l with
  | [] => None
  | y :: l' => if String.eqb y x then Some 0 else S <$> index x l'
  end.

End PyStr.

(** A path segment: a string without the separator. *)
Definition no_slash (s : string) : Prop := PyStr.contains "/" s = false.

(** ** URL helpers ([_convert_url_to_downloadable], [url_to_interact]) *)

(** [l[-1]] and [l[0]] on the result of [split], which is never empty. *)
Definition last_item (l : list string) : string := List.last l EmptyString.
Definition first_item (l : list string) : string := List.hd EmptyString l.

Definition drive_marker : string := "drive.google.com".
Definition dropbox_marker : string := "www.dropbox.com".
Definition dropbox_direct : string := "dl.dropboxusercontent.com".
Definition base_url : string := "https://drive.google.com/uc?export=download&id=".

Definition _convert_url_to_downloadable (url : string) : result string :=
  if PyStr.contains drive_marker url then
    let url_parts := PyStr.split "/" url in
    match PyStr.index "d" url_parts with
    | None => Raise (ValueError "'d' is not in list")
    | Some i =>
        match url_parts !! (i + 1) with
        | None => Raise IndexError
        | Some file_id => Ok (base_url +:+ file_id)
        end
    end
  else if PyStr.contains dropbox_marker url then
    Ok (PyStr.replace dropbox_marker dropbox_direct url)
  else Ok url.

Definition no_data8_msg : string := "Provide a URL attached to a data-8 repository".
Definition no_host_msg : string := "Provide a URL for github.com or data8.org".

Definition url_to_interact (url url_type : string) : result string :=
  if negb (existsb (fun i => PyStr.contains i url) ["data-8"; "data8.org"])
  then Raise (ValueError no_data8_msg)
  else
    rbind
      (if PyStr.contains "github.com" url then Ok "data-8/"
       else if PyStr.contains "data8.org" url then Ok "data8.org/"
       else Raise (ValueError no_host_msg))
      (fun repo_split =>
         let repo := first_item (PyStr.split "/" (last_item (PyStr.split repo_split url))) in
         let name_split :=
           if PyStr.contains "github.com" url then "gh-pages/" else repo +:+ "/" in
         let name := last_item (PyStr.split name_split url) in
         Ok ("https://" +:+ url_type +:+ ".berkeley.edu/hub/interact?repo="
               +:+ repo +:+ "&path=" +:+ name)).

(** The link that [url_to_interact] builds. *)
Definition interact_url (url_type repo name : string) : string :=
  "https://" +:+ url_type +:+ ".berkeley.edu/hub/interact?repo="
    +:+ repo +:+ "&path=" +:+ name.

(** ** Notebook documents *)

(** A cell of a version 4 notebook: a dictionary with the keys below.
    [prompt_number = None] stands for an absent key. *)
Record cell : Type := mk_cell {
  cell_type : string;
  source : string;
  outputs : list string;
  execution_count : option Z;
  prompt_number : option Z
}.

Record notebook : Type := mk_notebook {
  cells : list cell;
  nb_metadata : string
}.

Definition is_code (c : cell) : bool := String.eqb (cell_type c) "code".

Definition set_source (s : string) (c : cell) : cell :=
  mk_cell (cell_type c) s (outputs c) (execution_count c) (prompt_number c).
Definition set_outputs (o : list string) (c : cell) : cell :=
  mk_cell (cell_type c) (source c) o (execution_count c) (prompt_number c).
Definition set_execution_count (n : option Z) (c : cell) : cell :=
  mk_cell (cell_type c) (source c) (outputs c) n (prompt_number c).
Definition pop_prompt_number (c : cell) : cell :=
  mk_cell (cell_type c) (source c) (outputs c) (execution_count c) None.

(** ** The cell loop of [strip_answers]

    [for ii, cell in enumerate(nb['cells'])] walks the list object itself:
    the iterator holds the index [ii] and stops when [ii] is no longer
    inside the list as it is at that moment.  [cell] is the object stored at
    [ii], so the assignments to it are updates of the list at [ii], and
    [nb['cells'].pop(ii)] shortens the list that is being walked. *)

Section StripLoop.

Variables (strip_string : string) (remove_cell clean_outputs : bool).

(** [cell['source'] = cell['source'][:ix + len(strip_string)] + '\n'] *)
Definition truncate_source (ix : nat) (c : cell) : cell :=
  set_source (PyStr.take (ix + String.length strip_string) (source c) +:+ PyStr.nl) c.

(** The tail of the loop body: outputs, execution count, prompt number. *)
Definition clean_cell (c : cell) : cell :=
  let c1 := if clean_outputs then set_outputs [] c else c in
  pop_prompt_number (set_execution_count None c1).

Fixpoint strip_loop (fuel ii : nat) (cs : list cell) : list cell :=
  match fuel with
  | O => cs
  | S fuel' =>
      match cs !! ii with
      | None => cs
      | Some c =>
          if negb (is_code c) then strip_loop fuel' (S ii) cs
          else
            match PyStr.find strip_string (source c) with
            | Some ix =>
                if remove_cell then strip_loop fuel' (S ii) (delete ii cs)
                else strip_loop fuel' (S ii)
                       (<[ii := clean_cell (truncate_source ix c)]> cs)
            | None => strip_loop fuel' (S ii) (<[ii := clean_cell c]> cs)
            end
      end
  end.

(** The iterator yields at most [length cs] cells. *)
Definition strip_cells (cs : list cell) : list cell :=
  strip_loop (length cs) 0 cs.

(** What one pass of the loop body makes of a cell that is not removed. *)
Definition sanitize_cell (c : cell) : cell :=
  if negb (is_code c) then c
  else match PyStr.find strip_string (source c) with
       | Some ix => clean_cell (truncate_source ix c)
       | None => clean_cell c
       end.

Definition has_marker (c : cell) : bool :=
  is_code c && PyStr.contains strip_string (source c).

End StripLoop.

(** What the loop with [remove_cell] comes to, by recursion on the cells: a
    code cell with the marker goes, and the cell after it stays as it is. *)
Fixpoint strip_remove_spec (marker : string) (co : bool) (cs : list cell) : list cell :=
  match cs with
  | [] => []
  | a :: rest =>
      if has_marker marker a then
        match rest with
        | [] => []
        | b :: rest' => b :: strip_remove_spec marker co rest'
        end
      else sanitize_cell marker co a :: strip_remove_spec marker co rest
  end.

(** No code cell with the marker directly follows another one. *)
Fixpoint no_adjacent_markers (marker : string) (cs : list cell) : Prop :=
  match cs with
  | a :: (b :: _) as rest =>
      (has_marker marker a = true -> has_marker marker b = false)
      /\ no_adjacent_markers marker rest
  | _ => True
  end.

(** ** The world: file system and network

    What the functions do to their surroundings is recorded in a [world]:
    the directories, the files with their content, and the URLs fetched so
    far.  The surroundings they only read are an [env]: the home directory
    ([$HOME]), the home directories of the password database, what a URL
    serves, what a resumed download makes of a partial file, and what a zip
    archive holds (member names with their content; a name that ends with
    the separator is a directory).  A path names what is stored under it as
    it is written, up to trailing separators: the statements about the file
    system are for paths without empty, [.] and [..] segments
    ([Path.plainb]).  Permissions and printing are not modelled. *)

Inductive fcontent : Type :=
| Bytes (b : string)
| NotebookFile (nb : notebook).

Record world : Type := mk_world {
  dirs : gset string;
  files : gmap string fcontent;
  fetch_log : list string
}.

Record env : Type := mk_env {
  env_home : string;
  pwd_home : string -> option string;
  remote : string -> option string;
  resume : fcontent -> string -> result string;
  archive : string -> option (list (string * string))
}.

(** A state and exception monad: an exception keeps the world as it is at
    the point where it is raised. *)
Definition M (A : Type) : Type := world -> result A * world.

Definition ret {A} (a : A) : M A := fun w => (Ok a, w).
Definition raise {A} (e : exn) : M A := fun w => (Raise e, w).
Definition bind {A B} (m : M A) (k : A -> M B) : M B :=
  fun w => match m w with
           | (Ok a, w') => k a w'
           | (Raise e, w') => (Raise e, w')
           end.
Definition lift {A} (r : result A) : M A := fun w => (r, w).

Notation "x <- m ;; k" := (bind m (fun x => k))
  (at level 100, m at next level, right associativity).
Notation "m ;;; k" := (bind m (fun _ => k))
  (at level 100, right associativity).

Module Path.

(** A path without its trailing separators; the root stays the root. *)
Definition norm (p : string) : string :=
  match PyStr.rstrip "/" p with
  | EmptyString => if String.eqb p EmptyString then EmptyString else "/"
  | r => r
  end.

(** [os.path.join(a, b)] *)
Definition join (a b : string) : string :=
  if PyStr.startswith "/" b then b
  else if String.eqb a EmptyString || PyStr.startswith "/" (String.rev a)
       then a +:+ b
       else a +:+ "/" +:+ b.

(** [os.path.dirname(p)] *)
Definition dirname (p : string) : string :=
  let head := PyStr.take (PyStr.rfind_succ "/" p) p in
  match PyStr.rstrip "/" head with
  | EmptyString => head
  | r => r
  end.

(** [os.path.basename(p)] *)
Definition basename (p : string) : string :=
  PyStr.drop (PyStr.rfind_succ "/" p) p.

(** [os.path.expanduser(p)]: [~] is the home directory, [~user] the home
    directory of [user] in the password database; a user that is not known
    leaves the path as it is. *)
Definition expanduser (E : env) (p : string) : string :=
  if negb (PyStr.startswith "~" p) then p
  else
    let i := match PyStr.find "/" p with Some i => i | None => String.length p end in
    let userhome :=
      if Nat.eqb i 1 then Some (env_home E)
      else pwd_home E (PyStr.take (i - 1) (PyStr.drop 1 p)) in
    match userhome with
    | Some h =>
        match PyStr.rstrip "/" h +:+ PyStr.drop i p with
        | EmptyString => "/"
        | r => r
        end
    | None => p
    end.

(** [os.path.normpath(p)] *)
Fixpoint norm_comps (absolute : bool) (comps acc : list string) : list string :=
  match comps with
  | [] => rev acc
  | c :: comps' =>
      if String.eqb c EmptyString || String.eqb c "." then norm_comps absolute comps' acc
      else if negb (String.eqb c "..") then norm_comps absolute comps' (c :: acc)
      else match acc with
           | [] => if absolute then norm_comps absolute comps' acc
                   else norm_comps absolute comps' (c :: acc)
           | top :: acc' =>
               if String.eqb top ".." then norm_comps absolute comps' (c :: acc)
               else norm_comps absolute comps' acc'
           end
  end.

Definition normpath (p : string) : string :=
  if String.eqb p EmptyString then "."
  else
    let initial :=
      if PyStr.startswith "//" p && negb (PyStr.startswith "///" p) then "//"
      else if PyStr.startswith "/" p then "/"
      else EmptyString in
    let absolute := negb (String.eqb initial EmptyString) in
    match initial +:+ PyStr.join "/" (norm_comps absolute (PyStr.split "/" p) []) with
    | EmptyString => "."
    | r => r
    end.

(** A path, up to trailing separators, of segments that are names: none
    is empty, [.] or [..]; a leading separator makes it absolute. *)
Definition plain_seg (s : string) : bool :=
  negb (String.eqb s EmptyString) && negb (String.eqb s ".")
  && negb (String.eqb s "..").

Definition plainb (p : string) : bool :=
  match PyStr.split "/" (norm p) with
  | EmptyString :: seg :: segs => forallb plain_seg (seg :: segs)
  | segs => forallb plain_seg segs
  end.

(** A plain path without trailing separators: the one way to write it,
    under which a file is stored. *)
Definition canonb (p : string) : bool := plainb p && String.eqb (norm p) p.

(** The path itself and the directories above it, outermost first. *)
Fixpoint parents_aux (acc s : string) : list string :=
  match s with
  | EmptyString => [norm acc]
  | String c s' =>
      let acc' := acc +:+ String c EmptyString in
      if Ascii.eqb c "/"
      then (if String.eqb acc EmptyString then [] else [norm acc])
             ++ parents_aux acc' s'
      else parents_aux acc' s'
  end.

Definition parents (p : string) : list string := parents_aux EmptyString p.

End Path.

(** [os.path.isdir], [os.path.exists], [os.makedirs] *)
Definition isdir_in (w : world) (p : string) : bool :=
  negb (String.eqb p EmptyString) && bool_decide (Path.norm p ∈ dirs w).

(** A regular file is stored under its path without a trailing separator;
    with one, the path asks for a directory, and [os.path.exists] is false
    on a regular file. *)
Definition file_in (w : world) (p : string) : bool :=
  bool_decide (is_Some (files w !! p)).

Definition exists_in (w : world) (p : string) : bool :=
  isdir_in w p || file_in w p.

Definition isdir (p : string) : M bool := fun w => (Ok (isdir_in w p), w).
Definition path_exists (p : string) : M bool := fun w => (Ok (exists_in w p), w).

Definition add_dirs (l : list string) (w : world) : world :=
  mk_world (list_to_set l ∪ dirs w) (files w) (fetch_log w).

(** [os.makedirs(p)] makes the directory and the missing ones above it.
    It fails when something is at the path already, a directory or, under
    the path without its trailing separators, a regular file; and it fails,
    making nothing, when one of the paths above is a regular file. *)
Definition makedirs (p : string) : M unit := fun w =>
  if String.eqb p EmptyString then (Raise (FileNotFoundError p), w)
  else if file_in w (Path.norm p) || bool_decide (Path.norm p ∈ dirs w)
  then (Raise (FileExistsError p), w)
  else if existsb (file_in w) (Path.parents p)
  then (Raise (NotADirectoryError p), w)
  else (Ok tt, add_dirs (Path.parents p) w).

(** [if not op.isdir(p): os.makedirs(p)] *)
Definition ensure_dir (p : string) : M unit :=
  d <- isdir p ;; if d then ret tt else makedirs p.

(** [open(p, 'w')]: what stands in the way of writing the file [p]. *)
Definition open_error (w : world) (p : string) : option exn :=
  let d := Path.dirname p in
  if isdir_in w p then Some (IsADirectoryError p)
  else if String.eqb d EmptyString || isdir_in w d then None
  else if file_in w (Path.norm d) then Some (NotADirectoryError p)
  else Some (FileNotFoundError p).

(** [mne.utils._fetch_file(url, dest)]: the attempt is logged.  What the
    URL serves is written to [dest + '.part'], after what a partial file
    there already holds, and this file is then moved to [dest]: into it
    when [dest] is a directory, in its place otherwise. *)
Definition _fetch_file (E : env) (url dest : string) : M unit := fun w =>
  let w1 := mk_world (dirs w) (files w) (fetch_log w ++ [url]) in
  match remote E url with
  | None => (Raise (URLError url), w1)
  | Some b =>
      let part := dest +:+ ".part" in
      match open_error w1 part with
      | Some e => (Raise e, w1)
      | None =>
          match (match files w1 !! part with
                 | Some old => resume E old b
                 | None => Ok b
                 end) with
          | Raise e => (Raise e, w1)
          | Ok content =>
              let target :=
                if isdir_in w1 dest then Path.join dest (Path.basename part)
                else dest in
              if isdir_in w1 dest && exists_in w1 target
              then (Raise (ShutilError "Destination path already exists"),
                    mk_world (dirs w1) (<[part := Bytes content]> (files w1))
                             (fetch_log w1))
              else (Ok tt,
                    mk_world (dirs w1)
                      (<[target := Bytes content]> (delete part (files w1)))
                      (fetch_log w1))
          end
      end
  end.

(** [ZipFile._extract_member]: the name of the member without its empty,
    [.] and [..] segments, joined to the destination and normalised; the
    directory above is made when nothing is there; a directory member is
    made, a file member is written. *)
Definition arcname (name : string) : string :=
  PyStr.join "/" (List.filter Path.plain_seg (PyStr.split "/" name)).

Definition zip_target (out_path name : string) : string :=
  Path.normpath (Path.join out_path (arcname name)).

Definition is_dir_member (name : string) : bool :=
  PyStr.startswith "/" (String.rev name).

(** [os.mkdir(p)] *)
Definition mkdir (p : string) : M unit := fun w =>
  let d := Path.dirname p in
  if exists_in w p || file_in w (Path.norm p) then (Raise (FileExistsError p), w)
  else if String.eqb d EmptyString || isdir_in w d
  then (Ok tt, add_dirs [Path.norm p] w)
  else if file_in w (Path.norm d) then (Raise (NotADirectoryError p), w)
  else (Raise (FileNotFoundError p), w).

Definition write_bytes (p b : string) : M unit := fun w =>
  match open_error w p with
  | Some e => (Raise e, w)
  | None => (Ok tt, mk_world (dirs w) (<[p := Bytes b]> (files w)) (fetch_log w))
  end.

Definition extract_member (out_path : string) (m : string * string) : M unit :=
  let targetpath := zip_target out_path m.1 in
  let upperdirs := Path.dirname targetpath in
  ex <- path_exists upperdirs ;;
  (if negb (String.eqb upperdirs EmptyString) && negb ex
   then makedirs upperdirs else ret tt) ;;;
  if is_dir_member m.1 then
    d <- isdir targetpath ;; if d then ret tt else mkdir targetpath
  else write_bytes targetpath m.2.

Fixpoint extract_members (out_path : string) (members : list (string * string))
  : M unit :=
  match members with
  | [] => ret tt
  | m :: members' =>
      extract_member out_path m ;;; extract_members out_path members'
  end.

(** [ZipFile(tmpfile)] followed by [extractall(out_path)] *)
Definition extract_zip (E : env) (tmpfile out_path : string) : M unit := fun w =>
  if isdir_in w tmpfile then (Raise (IsADirectoryError tmpfile), w)
  else
    match files w !! tmpfile with
    | Some (Bytes b) =>
        match archive E b with
        | None => (Raise BadZipFile, w)
        | Some members => extract_members out_path members w
        end
    | Some (NotebookFile _) => (Raise BadZipFile, w)
    | None => (Raise (FileNotFoundError tmpfile), w)
    end.

(** [os.remove(p)] *)
Definition remove_file (p : string) : M unit := fun w =>
  match files w !! p with
  | Some _ => (Ok tt, mk_world (dirs w) (delete p (files w)) (fetch_log w))
  | None => (Raise (FileNotFoundError p), w)
  end.

(** [nbformat.read(nbpath, 4)] and [nbformat.write(nb, save_file)] *)
Definition nbformat_read (nbpath : string) : M notebook := fun w =>
  match files w !! nbpath with
  | Some (NotebookFile nb) => (Ok nb, w)
  | Some (Bytes _) => (Raise (NotJSONError nbpath), w)
  | None => (Raise (FileNotFoundError nbpath), w)
  end.

Definition nbformat_write (nb : notebook) (save_file : string) : M unit := fun w =>
  match open_error w save_file with
  | Some e => (Raise e, w)
  | None =>
      (Ok tt, mk_world (dirs w) (<[save_file := NotebookFile nb]> (files w))
                       (fetch_log w))
  end.

(** ** [strip_answers] *)

Definition set_cells (cs : list cell) (nb : notebook) : notebook :=
  mk_notebook cs (nb_metadata nb).

(** [name, ext = filename.split('.')] *)
Definition unpack2 (l : list string) : result (string * string) :=
  match l with
  | [a; b] => Ok (a, b)
  | [] | [_] => Raise (ValueError "not enough values to unpack (expected 2)")
  | _ => Raise (ValueError "too many values to unpack (expected 2)")
  end.

Definition strip_answers (nbpath strip_string output_suffix : string)
    (keep_strip_string remove_cell clean_outputs save : bool)
    (path_save : option string) : M notebook :=
  nb0 <- nbformat_read nbpath ;;
  let nb := set_cells (strip_cells strip_string remove_cell clean_outputs (cells nb0)) nb0 in
  (if save then
     let filename := Path.basename nbpath in
     let path_save := match path_save with
                      | None => Path.dirname nbpath
                      | Some d => d
                      end in
     ne <- lift (unpack2 (PyStr.split "." filename)) ;;
     let outname := ne.1 +:+ "_" +:+ output_suffix +:+ "." +:+ ne.2 in
     let save_file := path_save +:+ "/" +:+ outname in
     ensure_dir path_save ;;;
     nbformat_write nb save_file
   else ret tt) ;;;
  ret nb.

(** [path_save] as the function uses it, and the file it writes. *)
Definition save_dir (nbpath : string) (path_save : option string) : string :=
  match path_save with None => Path.dirname nbpath | Some d => d end.

Definition save_name (name suffix ext : string) : string :=
  name +:+ "_" +:+ suffix +:+ "." +:+ ext.

(** Cells and a world for concrete runs. *)
Definition answer_cell : cell :=
  mk_cell "code" ("x = 1" +:+ PyStr.nl +:+ "### STUDENT ANSWER" +:+ PyStr.nl +:+ "x = 42")
          ["42"] (Some 3%Z) None.
Definition plain_cell : cell :=
  mk_cell "code" "print(x)" ["1"] (Some 2%Z) None.
Definition text_cell : cell :=
  mk_cell "markdown" "# Exercise" [] None None.

Definition nb_world (cs : list cell) : world :=
  mk_world {["/home/u/course"]}
           {["/home/u/course/hw.ipynb" := NotebookFile (mk_notebook cs "meta")]} [].

(** ** [download_file] *)

Definition root_msg : string := "Cannot overwrite the root data directory".
Definition exists_msg (out_path : string) : string :=
  "Path " +:+ out_path +:+ " exists, use `replace=True` to overwrite".

(** [op.expanduser('~')] and
    [os.path.expanduser(os.path.join(root_destination, name))] *)
Definition home_of (E : env) : string := Path.expanduser E "~".
Definition dest_path (E : env) (root_destination name : string) : string :=
  Path.expanduser E (Path.join root_destination name).

Definition download_file (E : env) (url name root_destination : string)
    (zipfile replace : bool) : M unit :=
  let home := home_of E in
  let tmpfile := home +:+ "/tmp/tmp" in
  ensure_dir (home +:+ "/data/") ;;;
  ensure_dir (home +:+ "/tmp/") ;;;
  download_path <- lift (_convert_url_to_downloadable url) ;;
  let out_path := dest_path E root_destination name in
  ensure_dir (Path.dirname out_path) ;;;
  if zipfile then
    _fetch_file E download_path tmpfile ;;;
    extract_zip E tmpfile out_path ;;;
    remove_file tmpfile
  else
    if Nat.eqb (String.length name) 0 then raise (ValueError root_msg)
    else
      ex <- path_exists out_path ;;
      if negb replace && ex then raise (ValueError (exists_msg out_path))
      else _fetch_file E download_path out_path.

(** The default of [root_destination]. *)
Definition default_root : string := "~/data/".

(** A directory that [ensure_dir] can provide: a plain path that is a
    directory, or at which nothing is, neither a directory nor a regular
    file, and above which no path is a regular file. *)
Definition can_make (w : world) (p : string) : bool :=
  negb (bool_decide (Path.norm p ∈ dirs w))
  && negb (existsb (file_in w) (Path.parents p)).

Definition creatable (w : world) (p : string) : Prop :=
  Path.plainb p = true /\ (isdir_in w p = true \/ can_make w p = true).

(** A home directory with the two base folders, one data file, and a
    network that serves one file. *)
Definition no_resume (old : fcontent) (b : string) : result string :=
  Raise (ValueError "no partial download expected").

Definition E0 : env :=
  mk_env "/home/u"
         (fun user => if String.eqb user "root" then Some "/root" else None)
         (fun url => if String.eqb url "https://example.org/f.csv" then Some "a,b" else None)
         no_resume
         (fun _ => None).

(** A world in which only the data of another user is there. *)
Definition wr : world :=
  mk_world {["/root"; "/root/data"; "/home"; "/home/u"]}
           {["/root/data/old.csv" := Bytes "x,y"]} [].

Definition w0 : world :=
  mk_world {["/home"; "/home/u"; "/home/u/data"; "/home/u/tmp"]}
           {["/home/u/data/old.csv" := Bytes "x,y"]} [].

(** As [E0], with an archive of two members behind a dropbox link. *)
Definition E1 : env :=
  mk_env "/home/u"
         (fun _ => None)
         (fun url => if String.eqb url "https://dl.dropboxusercontent.com/s/k1/set1.zip"
                     then Some "PK" else None)
         no_resume
         (fun b => if String.eqb b "PK"
                   then Some [("old.csv", "p,q"); ("/../up.csv", "u,v")] else None).

(** ** [load_fmri_data]

    An array is a list of time-points, a time-point is the list of the
    values at the positions of the volume.  What the numerical libraries do
    is taken as given: [read_volume f] is
    [nibabel.load(f).get_data().T.astype(dtype)], which can fail, and
    [zscore] is [scipy.stats.zscore(_, axis=0)]. *)

Section LoadFmri.

Context {A : Type}.
Variable read_volume : string -> result (list (list A)).
Variable zscore : list (list A) -> list (list A).

(** [tmp[:, mask]]: the positions where the mask is true, for every
    time-point; the mask has to have the shape of the volume. *)
Fixpoint select (mask : list bool) (row : list A) : list A :=
  match mask, row with
  | b :: mask', x :: row' => if b then x :: select mask' row' else select mask' row'
  | _, _ => []
  end.

Definition apply_mask (mask : list bool) (a : list (list A)) : result (list (list A)) :=
  if forallb (fun row => Nat.eqb (length row) (length mask)) a
  then Ok (select mask <$> a)
  else Raise IndexError.

(** [np.vstack(data)]: fails on an empty list and on time-points that
    differ in size. *)
Definition vstack (data : list (list (list A))) : result (list (list A)) :=
  match data with
  | [] => Raise (ValueError "need at least one array to concatenate")
  | _ :: _ =>
      match concat data with
      | [] => Ok []
      | r :: rows =>
          if forallb (fun r' => Nat.eqb (length r') (length r)) rows
          then Ok (r :: rows)
          else Raise (ValueError "all the input array dimensions must match exactly")
      end
  end.

(** One turn of [for f in files]. *)
Definition load_one (do_zscore : bool) (mask : option (list bool)) (f : string)
  : result (list (list A)) :=
  rbind (read_volume f) (fun tmp =>
  rbind (match mask with
         | Some m => apply_mask m tmp
         | None => Ok tmp
         end) (fun tmp =>
  Ok (if do_zscore then zscore tmp else tmp))).

Fixpoint load_loop (do_zscore : bool) (mask : option (list bool))
    (files : list string) (data : list (list (list A)))
  : result (list (list (list A))) :=
  match files with
  | [] => Ok data
  | f :: files' =>
      rbind (load_one do_zscore mask f) (fun tmp =>
      load_loop do_zscore mask files' (data ++ [tmp]))
  end.

Definition load_fmri_data (files : list string) (do_zscore : bool)
    (mask : option (list bool)) : result (list (list A)) :=
  rbind (load_loop do_zscore mask files []) vstack.

(** The array that one file contributes, in the words of the
    specification: masked first, standardised second, on its own. *)
Definition per_file (do_zscore : bool) (mask : option (list bool))
    (v : list (list A)) : list (list A) :=
  let masked := match mask with Some m => select m <$> v | None => v end in
  if do_zscore then zscore masked else masked.

End LoadFmri.

(** Two runs over three positions, and an integer stand-in for the
    standardisation: every time-point minus the first one of its array. *)
Definition read_volume0 (f : string) : result (list (list Z)) :=
  if String.eqb f "run1.nii" then Ok [[1; 2; 3]; [3; 4; 5]]%Z
  else if String.eqb f "run2.nii" then Ok [[10; 20; 30]; [11; 22; 33]; [12; 24; 36]]%Z
  else Raise (FileNotFoundError f).

Definition centre0 (a : list (list Z)) : list (list Z) :=
  match a with
  | [] => []
  | r0 :: _ => (fun r => zip_with Z.sub r r0) <$> a
  end.

(** ** [load_eeg_data]

    The signal object of the reader: the data, one row per channel, with
    the sampling rate, the time stamps and the channel names of its header.
    What the libraries compute is taken as given: [read_raw] is
    [mne.io.Raw(fname, preload=True)], [mean0] is [_.mean(0)], [sub] the
    subtraction of two samples and [filter_data] is
    [mne.filter.filter_data]. *)

Section LoadEeg.

Context {A F T : Type}.

Record raw : Type := mk_raw {
  raw_data : list (list A);
  raw_sfreq : F;
  raw_times : list T;
  ch_names : list string
}.

Inductive eeg_output : Type :=
| EegRaw (r : raw)
| EegArrays (times : list T) (data : list (list A)).

Variable read_raw : string -> result raw.
Variable mean0 : list (list A) -> list A.
Variable sub : A -> A -> A.
Variable filter_data : list (list A) -> F -> F -> F -> list (list A).

(** [d[:-2]] *)
Definition drop_last2 (d : list (list A)) : list (list A) :=
  take (length d - 2) d.

(** [d[i]] for an integer [i]: negative indices count from the end. *)
Definition np_row (d : list (list A)) (i : Z) : result (list A) :=
  let n := Z.of_nat (length d) in
  let j := if (i <? 0)%Z then (i + n)%Z else i in
  if ((0 <=? j) && (j <? n))%Z
  then match d !! Z.to_nat j with
       | Some r => Ok r
       | None => Raise IndexError
       end
  else Raise IndexError.

(** [d[list(idx)]] *)
Fixpoint take_rows (d : list (list A)) (idx : list Z) : result (list (list A)) :=
  match idx with
  | [] => Ok []
  | i :: idx' =>
      rbind (np_row d i) (fun r =>
      rbind (take_rows d idx') (fun rs => Ok (r :: rs)))
  end.

Definition set_raw_data (d : list (list A)) (r : raw) : raw :=
  mk_raw d (raw_sfreq r) (raw_times r) (ch_names r).

Definition load_eeg_data (fname : string) (ref_electrode_idx : option (list Z))
    (filter_cutoffs : option (F * F)) (return_mne : bool) : result eeg_output :=
  rbind (read_raw fname) (fun r =>
  let r := set_raw_data (drop_last2 (raw_data r)) r in
  rbind (match ref_electrode_idx with
         | Some idx =>
             rbind (take_rows (raw_data r) idx) (fun ref_electrodes =>
             Ok (set_raw_data
                   ((fun row => zip_with sub row (mean0 ref_electrodes)) <$> raw_data r)
                   r))
         | None => Ok r
         end) (fun r =>
  let r := match filter_cutoffs with
           | Some (fmin, fmax) =>
               set_raw_data (filter_data (raw_data r) (raw_sfreq r) fmin fmax) r
           | None => r
           end in
  Ok (if return_mne then EegRaw r else EegArrays (raw_times r) (raw_data r)))).

Definition eeg_data (o : eeg_output) : list (list A) :=
  match o with EegRaw r => raw_data r | EegArrays _ d => d end.

(** The reference rows are looked up in the data without its last two
    channels. *)
Definition ref_in_range (n : nat) (i : Z) : Prop :=
  (- Z.of_nat (n - 2) <= i < Z.of_nat (n - 2))%Z.

End LoadEeg.

(** A recording of four channels with two samples each, and integer
    stand-ins for the numerics: the column sums for the mean, the identity
    for the filter. *)
Definition raw0 : @raw Z Z Z :=
  mk_raw [[1; 2]; [3; 4]; [5; 6]; [7; 8]]%Z 250%Z [0; 4]%Z ["Fz"; "Cz"; "M1"; "M2"].

Definition read_raw0 (fname : string) : result (@raw Z Z Z) :=
  if String.eqb fname "s1.fif" then Ok raw0 else Raise (FileNotFoundError fname).

Definition colsum0 (rows : list (list Z)) : list Z :=
  match rows with
  | [] => []
  | r :: rs => foldl (zip_with Z.add) r rs
  end.

Definition filter0 (d : list (list Z)) (sfreq lo hi : Z) : list (list Z) := d.

(* ================================================================== *)
(** * Properties *)

Example find_ex : PyStr.find "bc" "abcbc" = Some 1.
Proof. reflexivity. Qed.
Example find_empty : PyStr.find "" "abc" = Some 0.
Proof. reflexivity. Qed.
Example replace_ex : PyStr.replace "ab" "X" "cababab-aab" = "cXXX-aX".
Proof. reflexivity. Qed.
Example replace_overlap : PyStr.replace "aa" "b" "aaa" = "ba".
Proof. reflexivity. Qed.
Example split_ex : PyStr.split "/" "a//b/" = ["a"; ""; "b"; ""].
Proof. reflexivity. Qed.
Example split_multi : PyStr.split "ab" "cabab-ab" = ["c"; ""; "-"; ""].
Proof. reflexivity. Qed.
Example rfind_ex : PyStr.rfind_succ "/" "/a/bc" = 3.
Proof. reflexivity. Qed.
Example rstrip_ex : PyStr.rstrip "/" "/a//" = "/a".
Proof. reflexivity. Qed.
Example rstrip_all : PyStr.rstrip "/" "//" = "".
Proof. reflexivity. Qed.

Example join_ex : Path.join "~/data/" "eeg/run1.fif" = "~/data/eeg/run1.fif".
Proof. reflexivity. Qed.
Example join_sep : Path.join "~/data" "" = "~/data/".
Proof. reflexivity. Qed.
Example join_abs : Path.join "~/data/" "/srv/x" = "/srv/x".
Proof. reflexivity. Qed.
Example dirname_ex : Path.dirname "/home/u/data/eeg/run1.fif" = "/home/u/data/eeg".
Proof. reflexivity. Qed.
Example dirname_slash : Path.dirname "/home/u/data/" = "/home/u/data".
Proof. reflexivity. Qed.
Example dirname_bare : Path.dirname "hw.ipynb" = "".
Proof. reflexivity. Qed.
Example dirname_root : Path.dirname "/tmp" = "/".
Proof. reflexivity. Qed.
Example basename_ex : Path.basename "/home/u/course/hw.ipynb" = "hw.ipynb".
Proof. reflexivity. Qed.
Example parents_ex :
  Path.parents "/home/u/fresh/" = ["/home"; "/home/u"; "/home/u/fresh"; "/home/u/fresh"].
Proof. reflexivity. Qed.

Example convert_drive :
  _convert_url_to_downloadable "https://drive.google.com/file/d/1AbC/view?usp=sharing"
  = Ok "https://drive.google.com/uc?export=download&id=1AbC".
Proof. reflexivity. Qed.
Example convert_drive_open :
  _convert_url_to_downloadable "https://drive.google.com/open?id=1AbC"
  = Raise (ValueError "'d' is not in list").
Proof. reflexivity. Qed.
Example convert_drive_last :
  _convert_url_to_downloadable "https://drive.google.com/file/d" = Raise IndexError.
Proof. reflexivity. Qed.
Example convert_dropbox :
  _convert_url_to_downloadable "https://www.dropbox.com/s/k1/f.zip?dl=0"
  = Ok "https://dl.dropboxusercontent.com/s/k1/f.zip?dl=0".
Proof. reflexivity. Qed.
Example interact_github :
  url_to_interact "https://github.com/data-8/textbook/gh-pages/notebooks/a.ipynb" "data8"
  = Ok "https://data8.berkeley.edu/hub/interact?repo=textbook&path=notebooks/a.ipynb".
Proof. reflexivity. Qed.
Example interact_site :
  url_to_interact "http://data8.org/materials/lec/lec01.ipynb" "ds8"
  = Ok "https://ds8.berkeley.edu/hub/interact?repo=materials&path=lec/lec01.ipynb".
Proof. reflexivity. Qed.

(** ** Facts about the string primitives *)

Section StringFacts.

Lemma sapp_nil (s : string) : "" +:+ s = s.
Proof. reflexivity. Qed.

Lemma sapp_cons (c : ascii) (a b : string) : String c a +:+ b = String c (a +:+ b).
Proof. reflexivity. Qed.

Lemma startswith_app (p s : string) : PyStr.startswith p (p +:+ s) = true.
Proof.
  induction p as [|c p IH]; [done|].
  rewrite sapp_cons. cbn [PyStr.startswith]. by rewrite Ascii.eqb_refl, IH.
Qed.

Lemma startswith_char (a c : ascii) (s : string) :
  PyStr.startswith (String a "") (String c s) = Ascii.eqb a c.
Proof. cbn [PyStr.startswith]. apply andb_true_r. Qed.

Lemma find_cons_S (sub : string) (c : ascii) (s : string) (n : nat) :
  PyStr.find sub (String c s) = Some (S n) ->
  PyStr.startswith sub (String c s) = false /\ PyStr.find sub s = Some n.
Proof.
  cbn [PyStr.find]. destruct (PyStr.startswith sub (String c s)); [discriminate|].
  destruct (PyStr.find sub s) as [m|]; cbn; intros [= ->]; auto.
Qed.

Lemma contains_cons_false (sub : string) (c : ascii) (s : string) :
  PyStr.contains sub (String c s) = false ->
  PyStr.startswith sub (String c s) = false /\ PyStr.contains sub s = false.
Proof.
  unfold PyStr.contains. cbn [PyStr.find].
  destruct (PyStr.startswith sub (String c s)); [discriminate|].
  destruct (PyStr.find sub s); cbn; [discriminate | auto].
Qed.

Lemma string_app_assoc (a b c : string) : (a +:+ b) +:+ c = a +:+ (b +:+ c).
Proof. induction a as [|x a IH]; [done | by rewrite !sapp_cons, IH]. Qed.

Lemma string_app_length (a b : string) :
  String.length (a +:+ b) = String.length a + String.length b.
Proof.
  induction a as [|x a IH]; [done|]. rewrite sapp_cons. simpl. by rewrite IH.
Qed.

(** Passing over the rest of a matched occurrence. *)
Lemma replace_aux_skip (old new a s : string) :
  PyStr.replace_aux old new (String.length a) (a +:+ s)
  = PyStr.replace_aux old new 0 s.
Proof.
  induction a as [|x a IH]; [done|]. rewrite sapp_cons. exact IH.
Qed.

Lemma replace_absent (old new s : string) :
  PyStr.contains old s = false -> PyStr.replace old new s = s.
Proof.
  unfold PyStr.replace. induction s as [|c s IH]; [done|].
  intros [Hp Hc]%contains_cons_false. cbn [PyStr.replace_aux].
  rewrite Hp. by rewrite IH.
Qed.

(** The first occurrence is replaced, and the search resumes after it. *)
Lemma replace_first (old new pre post : string) :
  old <> EmptyString ->
  PyStr.find old (pre +:+ old +:+ post) = Some (String.length pre) ->
  PyStr.replace old new (pre +:+ old +:+ post)
  = pre +:+ new +:+ PyStr.replace old new post.
Proof.
  intros Hne. unfold PyStr.replace. induction pre as [|c pre IH]; intros Hf.
  - destruct old as [|o old]; [done|]. rewrite sapp_nil.
    pose proof (startswith_app (String o old) post) as Hp.
    rewrite sapp_cons in *. cbn [PyStr.replace_aux]. rewrite Hp.
    replace (String.length (String o old) - 1) with (String.length old)
      by (cbn [String.length]; lia).
    by rewrite replace_aux_skip.
  - rewrite sapp_cons in *. cbn [String.length] in Hf.
    apply find_cons_S in Hf as [Hp Hf].
    cbn [PyStr.replace_aux]. rewrite Hp. by rewrite IH.
Qed.

Lemma split_no_slash (s : string) : no_slash s -> PyStr.split "/" s = [s].
Proof.
  unfold no_slash, PyStr.split. induction s as [|c s IH]; [done|].
  intros [Hp Hc]%contains_cons_false. cbn [PyStr.split_aux].
  rewrite Hp. by rewrite IH.
Qed.

Lemma split_slash_cons (x rest : string) :
  no_slash x ->
  PyStr.split "/" (x +:+ "/" +:+ rest) = x :: PyStr.split "/" rest.
Proof.
  change ("/" +:+ rest) with (String "/" rest).
  unfold no_slash, PyStr.split. induction x as [|c x IH].
  - intros _. reflexivity.
  - intros [Hp Hc]%contains_cons_false.
    rewrite sapp_cons. cbn [PyStr.split_aux].
    rewrite startswith_char in *. rewrite Hp. by rewrite IH.
Qed.

Lemma split_join (segs : list string) :
  segs <> [] -> Forall no_slash segs ->
  PyStr.split "/" (PyStr.join "/" segs) = segs.
Proof.
  induction segs as [|x segs IH]; [done|]. intros _ Hall.
  apply Forall_cons in Hall as [Hx Hall].
  destruct segs as [|y segs].
  - by apply split_no_slash.
  - change (PyStr.join "/" (x :: y :: segs))
      with (x +:+ "/" +:+ PyStr.join "/" (y :: segs)).
    rewrite split_slash_cons by done. by rewrite IH.
Qed.

Lemma index_app_first (x : string) (pre rest : list string) :
  x ∉ pre -> PyStr.index x (pre ++ x :: rest) = Some (length pre).
Proof.
  induction pre as [|y pre IH]; intros Hnin; cbn [app PyStr.index length].
  - by rewrite String.eqb_refl.
  - apply not_elem_of_cons in Hnin as [Hne Hnin].
    destruct (String.eqb_spec y x); [congruence|]. by rewrite IH.
Qed.

End StringFacts.

(** ** [_convert_url_to_downloadable] *)

(** C6. For a cloud-drive share link, a URL that contains the drive marker
    and whose ["/"]-separated segments include a literal [d] segment followed
    by another segment, the identifier is the segment right after the
    (first) [d] segment and the result is the direct-download template with
    that identifier appended. *)
Theorem convert_drive_file_id (pre rest : list string) (fid url : string) :
  Forall no_slash (pre ++ "d" :: fid :: rest) ->
  "d" ∉ pre ->
  url = PyStr.join "/" (pre ++ "d" :: fid :: rest) ->
  PyStr.contains drive_marker url = true ->
  _convert_url_to_downloadable url = Ok (base_url +:+ fid).
Proof.
  intros Hall Hd -> Hm. unfold _convert_url_to_downloadable. rewrite Hm.
  cbn zeta. rewrite split_join; [| by destruct pre | done].
  rewrite index_app_first by done.
  rewrite lookup_app_r by lia.
  by replace (length pre + 1 - length pre) with 1 by lia.
Qed.

Lemma convert_drive_file_id_witness :
  _convert_url_to_downloadable "https://drive.google.com/file/d/1AbC/view"
  = Ok (base_url +:+ "1AbC").
Proof.
  apply (convert_drive_file_id ["https:"; ""; "drive.google.com"; "file"] ["view"]).
  - repeat constructor.
  - intros H. repeat (apply elem_of_cons in H as [H|H]; [discriminate|]).
    by apply elem_of_nil in H.
  - reflexivity.
  - reflexivity.
Defined.

(** C5, as stated, fails: [str.replace] rewrites every occurrence of the
    host marker, also one in the path or in the query. *)
Lemma convert_dropbox_rewrites_path :
  _convert_url_to_downloadable "https://www.dropbox.com/s/k1/www.dropbox.com.txt?dl=0"
  = Ok "https://dl.dropboxusercontent.com/s/k1/dl.dropboxusercontent.com.txt?dl=0"
  /\ _convert_url_to_downloadable "https://www.dropbox.com/s/k1/www.dropbox.com.txt?dl=0"
     <> Ok ("https://" +:+ dropbox_direct +:+ "/s/k1/www.dropbox.com.txt?dl=0").
Proof. split; [reflexivity | discriminate]. Qed.

(** C5, amended. For a URL without the drive marker in which the dropbox
    host marker first occurs after [pre], the marker is replaced by the
    direct-content host and the text before it is kept; the rest of the URL
    is kept verbatim when the marker does not occur in it again, and has its
    further occurrences replaced as well otherwise. *)
Theorem convert_dropbox_host (pre post url : string) :
  url = pre +:+ dropbox_marker +:+ post ->
  PyStr.contains drive_marker url = false ->
  PyStr.find dropbox_marker url = Some (String.length pre) ->
  _convert_url_to_downloadable url
  = Ok (pre +:+ dropbox_direct +:+ PyStr.replace dropbox_marker dropbox_direct post)
  /\ (PyStr.contains dropbox_marker post = false ->
      _convert_url_to_downloadable url = Ok (pre +:+ dropbox_direct +:+ post)).
Proof.
  intros -> Hg Hf. unfold _convert_url_to_downloadable. rewrite Hg.
  unfold PyStr.contains. rewrite Hf.
  rewrite replace_first by done.
  split; [done|]. intros Hpost. by rewrite (replace_absent _ _ post).
Qed.

Lemma convert_dropbox_host_witness :
  _convert_url_to_downloadable "https://www.dropbox.com/s/k1/f.zip?dl=0"
  = Ok ("https://" +:+ dropbox_direct +:+ "/s/k1/f.zip?dl=0").
Proof.
  apply (convert_dropbox_host "https://" "/s/k1/f.zip?dl=0"); reflexivity.
Defined.

(** ** [url_to_interact] *)



(** ** The cell loop *)

Section StripFacts.

Variables (strip_string : string) (clean_outputs : bool).

Local Abbreviation loop := (strip_loop strip_string).
Local Abbreviation sanitize := (sanitize_cell strip_string clean_outputs).

(** Without [remove_cell] the list keeps its length, the iterator reaches
    every cell, and the loop is a map of the loop body. *)
Lemma strip_loop_keep (fuel ii : nat) (cs : list cell) :
  length cs <= ii + fuel ->
  loop false clean_outputs fuel ii cs = take ii cs ++ (sanitize <$> drop ii cs).
Proof.
  revert ii cs. induction fuel as [|fuel IH]; intros ii cs Hlen.
  - rewrite drop_ge, take_ge by lia. cbn. by rewrite app_nil_r.
  - cbn [strip_loop]. destruct (cs !! ii) as [c|] eqn:Hc.
    + pose proof (take_S_r _ _ _ Hc) as Htake.
      pose proof (drop_S _ _ _ Hc) as Hdrop.
      assert (Hstep : forall c', length (<[ii := c']> cs) <= S ii + fuel)
        by (intros; rewrite length_insert; lia).
      assert (Hins : forall c',
                 take (S ii) (<[ii := c']> cs) ++ (sanitize <$> drop (S ii) (<[ii := c']> cs))
                 = take ii cs ++ c' :: (sanitize <$> drop (S ii) cs)).
      { intros c'. rewrite drop_insert_lt by lia.
        rewrite (take_S_r _ _ c') by (apply list_lookup_insert_eq; eauto using lookup_lt_Some).
        rewrite take_insert_ge by lia. by rewrite <- app_assoc. }
      rewrite Hdrop, fmap_cons.
      destruct (negb (is_code c)) eqn:Hcode.
      * assert (sanitize c = c) as ->
          by (unfold sanitize_cell; by rewrite Hcode).
        rewrite IH by lia. rewrite Htake. by rewrite <- app_assoc.
      * destruct (PyStr.find strip_string (source c)) as [ix|] eqn:Hf;
          rewrite IH by done; rewrite Hins; do 2 f_equal;
          unfold sanitize_cell; by rewrite Hcode, Hf.
    + apply lookup_ge_None in Hc.
      rewrite drop_ge, take_ge by lia. cbn. by rewrite app_nil_r.
Qed.

Lemma strip_cells_keep (cs : list cell) :
  strip_cells strip_string false clean_outputs cs = sanitize <$> cs.
Proof. unfold strip_cells. by rewrite strip_loop_keep by lia. Qed.

Lemma take_app_exact (a b : string) : PyStr.take (String.length a) (a +:+ b) = a.
Proof.
  unfold PyStr.take. induction a as [|x a IH].
  - by destruct b.
  - rewrite sapp_cons. cbn [String.length substring]. by rewrite IH.
Qed.


Lemma sanitize_clean (c : cell) :
  is_code c = true ->
  execution_count (sanitize c) = None
  /\ (clean_outputs = true -> outputs (sanitize c) = []).
Proof.
  intros Hcode. unfold sanitize_cell, clean_cell. rewrite Hcode. cbn.
  destruct (PyStr.find strip_string (source c)); cbn; split; try done;
    by intros ->.
Qed.

Lemma sanitize_type (c : cell) : cell_type (sanitize c) = cell_type c.
Proof.
  unfold sanitize_cell, clean_cell.
  destruct (negb (is_code c)); [done|].
  destruct (PyStr.find strip_string (source c)); by destruct clean_outputs.
Qed.

End StripFacts.

(** The fuel of [strip_cells] is never used up: the loop ends because the
    iterator leaves the list, and more fuel changes nothing. *)
Lemma strip_loop_fuel (marker : string) (rm co : bool) (fuel k ii : nat)
    (cs : list cell) :
  length cs <= ii + fuel ->
  strip_loop marker rm co (fuel + k) ii cs = strip_loop marker rm co fuel ii cs.
Proof.
  revert ii cs. induction fuel as [|fuel IH]; intros ii cs Hlen.
  - cbn. destruct k; [done|]. cbn.
    by rewrite (proj2 (lookup_ge_None cs ii)) by lia.
  - cbn [Nat.add strip_loop]. destruct (cs !! ii) as [c|] eqn:Hc; [|done].
    destruct (negb (is_code c)); [apply IH; lia|].
    destruct (PyStr.find marker (source c)); [destruct rm|]; apply IH;
      rewrite ?length_delete, ?length_insert; eauto; lia.
Qed.

(** One turn of the loop. *)
Lemma strip_loop_S (marker : string) (rm co : bool) (fuel ii : nat) (cs : list cell) :
  strip_loop marker rm co (S fuel) ii cs
  = match cs !! ii with
    | None => cs
    | Some c =>
        if negb (is_code c) then strip_loop marker rm co fuel (S ii) cs
        else match PyStr.find marker (source c) with
             | Some ix =>
                 if rm then strip_loop marker rm co fuel (S ii) (delete ii cs)
                 else strip_loop marker rm co fuel (S ii)
                        (<[ii := clean_cell co (truncate_source marker ix c)]> cs)
             | None => strip_loop marker rm co fuel (S ii) (<[ii := clean_cell co c]> cs)
             end
    end.
Proof. reflexivity. Qed.

(** Cells before the iterator are out of its reach. *)
Lemma strip_loop_cons (marker : string) (rm co : bool) (fuel ii : nat)
    (b : cell) (cs : list cell) :
  strip_loop marker rm co fuel (S ii) (b :: cs)
  = b :: strip_loop marker rm co fuel ii cs.
Proof.
  revert ii cs. induction fuel as [|fuel IH]; intros ii cs; [done|].
  cbn [strip_loop lookup list_lookup]. change ((b :: cs) !! S ii) with (cs !! ii).
  destruct (cs !! ii) as [c|]; [|done].
  destruct (negb (is_code c)); [apply IH|].
  destruct (PyStr.find marker (source c)); [destruct rm|]; apply IH.
Qed.

(** With [remove_cell], the cell after a removed one is passed over, as it
    is: whether it has the marker or not, and with its outputs. *)
Lemma strip_cells_remove_skips (marker : string) (co : bool) (a b : cell)
    (rest : list cell) :
  has_marker marker a = true ->
  strip_cells marker true co (a :: b :: rest)
  = b :: strip_cells marker true co rest.
Proof.
  unfold has_marker, PyStr.contains, strip_cells.
  intros [Hcode Hfind]%andb_true_iff.
  cbn [length]. rewrite strip_loop_S.
  change ((a :: b :: rest) !! 0) with (Some a). cbv beta iota.
  rewrite Hcode. cbn [negb].
  destruct (PyStr.find marker (source a)); [|done].
  change (delete 0 (a :: b :: rest)) with (b :: rest). rewrite strip_loop_cons.
  by rewrite <- (strip_loop_fuel _ _ _ (length rest) 1 0 rest), Nat.add_1_r by lia.
Qed.

(** Without [remove_cell], clearing reaches every code cell. *)
Lemma strip_cells_keep_cleans (strip_string : string) (cs : list cell) (c : cell) :
  c ∈ strip_cells strip_string false true cs ->
  is_code c = true ->
  outputs c = [] /\ execution_count c = None.
Proof.
  rewrite strip_cells_keep. intros (c0 & -> & Hin)%list_elem_of_fmap Hcode.
  unfold is_code in Hcode. rewrite sanitize_type in Hcode.
  destruct (sanitize_clean strip_string true c0 Hcode) as [He Ho]. auto.
Qed.

(** ** [strip_answers] *)



Example expanduser_ex : Path.expanduser E0 "~/data/x.csv" = "/home/u/data/x.csv".
Proof. reflexivity. Qed.
Example expanduser_other : Path.expanduser E0 "~bob/x.csv" = "~bob/x.csv".
Proof. reflexivity. Qed.

(** A run that saves: the copy goes next to the notebook, under the
    suffixed name, and the notebook itself stays as it was. *)
Example strip_answers_saves :
  strip_answers "/home/u/course/hw.ipynb" "### STUDENT ANSWER" "student"
    true false true true None (nb_world [answer_cell])
  = (Ok (mk_notebook
           [mk_cell "code" ("x = 1" +:+ PyStr.nl +:+ "### STUDENT ANSWER" +:+ PyStr.nl)
                    [] None None] "meta"),
     mk_world {["/home/u/course"]}
       (<["/home/u/course/hw_student.ipynb" :=
            NotebookFile (mk_notebook
              [mk_cell "code" ("x = 1" +:+ PyStr.nl +:+ "### STUDENT ANSWER" +:+ PyStr.nl)
                       [] None None] "meta")]>
          (files (nb_world [answer_cell]))) []).
Proof. vm_compute. reflexivity. Qed.

(** A file name with two dots cannot be unpacked into name and extension. *)
Example strip_answers_two_dots :
  (strip_answers "/home/u/course/hw.v2.ipynb" "### STUDENT ANSWER" "student"
     true false true true None
     (mk_world {["/home/u/course"]}
        {["/home/u/course/hw.v2.ipynb" := NotebookFile (mk_notebook [] "meta")]} [])).1
  = Raise (ValueError "too many values to unpack (expected 2)").
Proof. reflexivity. Qed.



(** C10. [keep_strip_string] is never read: the outcome of a call, the
    returned document or the exception, and the world it leaves behind, with
    any saved file, are the same for both values of the flag. *)
Theorem keep_strip_string_ignored
    (nbpath marker suffix : string) (k1 k2 rm co save : bool)
    (path_save : option string) (w : world) :
  strip_answers nbpath marker suffix k1 rm co save path_save w
  = strip_answers nbpath marker suffix k2 rm co save path_save w.
Proof. reflexivity. Qed.

(** C1 fails on the code: of two adjacent code cells with the marker only
    the first is removed.  After [pop(ii)] the second cell sits at [ii] and
    the iterator moves on to [ii + 1], so the second cell is never looked at. *)
Theorem strip_answers_adjacent_survives :
  strip_answers "/home/u/course/hw.ipynb" "### STUDENT ANSWER" "student"
    true true true false None (nb_world [answer_cell; answer_cell; text_cell])
  = (Ok (mk_notebook [answer_cell; text_cell] "meta"),
     nb_world [answer_cell; answer_cell; text_cell])
  /\ has_marker "### STUDENT ANSWER" answer_cell = true.
Proof. split; reflexivity. Qed.

(** C2 fails on the code: with [remove_cell=True] the code cell that follows
    a removed cell is skipped by the iterator and keeps its outputs and its
    execution count. *)
Theorem strip_answers_skipped_not_cleaned :
  strip_answers "/home/u/course/hw.ipynb" "### STUDENT ANSWER" "student"
    true true true false None (nb_world [answer_cell; plain_cell])
  = (Ok (mk_notebook [plain_cell] "meta"), nb_world [answer_cell; plain_cell])
  /\ is_code plain_cell = true
  /\ outputs plain_cell = ["1"]
  /\ execution_count plain_cell = Some 2%Z.
Proof. repeat split; reflexivity. Qed.

(** ** The monad and the file system *)

Section WorldFacts.

Lemma bind_ok {A B} (m : M A) (k : A -> M B) (w w' : world) (a : A) :
  m w = (Ok a, w') -> bind m k w = k a w'.
Proof. unfold bind. by intros ->. Qed.

Lemma string_app_nil_r (s : string) : s +:+ "" = s.
Proof. induction s as [|c s IH]; [done | by rewrite sapp_cons, IH]. Qed.

(** [makedirs] creates the directory it is asked for. *)
Lemma norm_in_parents_aux (acc s : string) :
  Path.norm (acc +:+ s) ∈ Path.parents_aux acc s.
Proof.
  revert acc. induction s as [|c s IH]; intros acc; cbn [Path.parents_aux].
  - rewrite string_app_nil_r. apply list_elem_of_singleton. done.
  - specialize (IH (acc +:+ String c "")).
    rewrite string_app_assoc in IH. change (String c "" +:+ s) with (String c s) in IH.
    destruct (Ascii.eqb c "/"); [apply elem_of_app; by right | done].
Qed.

Lemma norm_in_parents (p : string) : Path.norm p ∈ Path.parents p.
Proof. apply (norm_in_parents_aux "" p). Qed.

Lemma isdir_in_mono (w w' : world) (p : string) :
  dirs w ⊆ dirs w' -> isdir_in w p = true -> isdir_in w' p = true.
Proof.
  unfold isdir_in. intros Hsub [Hne Hin%bool_decide_eq_true]%andb_true_iff.
  rewrite Hne. cbn. apply bool_decide_eq_true. set_solver.
Qed.

Lemma exists_in_mono (w w' : world) (p : string) :
  dirs w ⊆ dirs w' -> files w' = files w ->
  exists_in w p = true -> exists_in w' p = true.
Proof.
  unfold exists_in, file_in. intros Hsub -> [Hd | Hf]%orb_true_iff.
  - by rewrite (isdir_in_mono w w' p).
  - rewrite Hf. apply orb_true_r.
Qed.

Lemma plainb_nonempty (p : string) : Path.plainb p = true -> p <> EmptyString.
Proof. by intros H ->. Qed.

Lemma can_make_files (w w' : world) (p : string) :
  files w' = files w ->
  existsb (file_in w') (Path.parents p) = existsb (file_in w) (Path.parents p).
Proof. intros Hf. unfold file_in. by rewrite Hf. Qed.

Lemma creatable_mono (w w' : world) (p : string) :
  dirs w ⊆ dirs w' -> files w' = files w ->
  creatable w p -> creatable w' p.
Proof.
  intros Hsub Hf [Hpl Hc]. split; [done|].
  destruct (isdir_in w' p) eqn:Hd'; [by left | right].
  destruct Hc as [Hd | Hm].
  - by rewrite (isdir_in_mono w w' p) in Hd'.
  - unfold can_make in *. rewrite (can_make_files w w' p Hf).
    apply andb_true_iff in Hm as [_ ->]. rewrite andb_true_r.
    unfold isdir_in in Hd'.
    pose proof (plainb_nonempty _ Hpl) as Hne. apply String.eqb_neq in Hne.
    rewrite Hne in Hd'. cbn in Hd'. by rewrite Hd'.
Qed.

(** What [ensure_dir] does where the directory can be provided: the
    directory is there afterwards; the directories that are new are the
    path and paths above it, and there are none when the directory was
    there; neither the files nor the network are touched. *)
Lemma ensure_dir_ok (w : world) (p : string) :
  creatable w p ->
  exists w', ensure_dir p w = (Ok tt, w')
             /\ files w' = files w /\ fetch_log w' = fetch_log w
             /\ dirs w ⊆ dirs w'
             /\ dirs w' ⊆ dirs w ∪ list_to_set (Path.parents p)
             /\ isdir_in w' p = true
             /\ (isdir_in w p = true -> w' = w).
Proof.
  intros [Hpl Hc]. unfold ensure_dir, bind, isdir.
  destruct (isdir_in w p) eqn:Hd.
  - exists w. repeat split; try done. apply union_subseteq_l.
  - destruct Hc as [? | Hm]; [done|].
    pose proof (plainb_nonempty _ Hpl) as Hne. apply String.eqb_neq in Hne.
    apply andb_true_iff in Hm as [Hnd Hnf].
    apply negb_true_iff in Hnd, Hnf.
    assert (Hfile : file_in w (Path.norm p) = false).
    { destruct (file_in w (Path.norm p)) eqn:Hfp; [|done].
      rewrite <- Hnf. symmetry. apply existsb_exists. exists (Path.norm p).
      split; [|done]. apply list_elem_of_In, norm_in_parents. }
    unfold makedirs. rewrite Hne, Hfile, Hnd, Hnf.
    eexists. split; [done|]. cbn.
    repeat split; [apply union_subseteq_r | by rewrite (comm_L (∪)) | | done].
    unfold isdir_in. rewrite Hne. cbn. apply bool_decide_eq_true.
    apply elem_of_union_l, elem_of_list_to_set, norm_in_parents.
Qed.

End WorldFacts.

(** ** [download_file] *)

(** The steps before the branch on [zipfile]: the two base folders, the
    URL, the parent directory of the destination. *)
Lemma download_setup {A} (w : world) (hd ht parent : string)
    (conv : result string) (d : string) (k : string -> M A) :
  conv = Ok d ->
  creatable w hd -> creatable w ht -> creatable w parent ->
  exists w',
    (ensure_dir hd ;;; ensure_dir ht ;;; dp <- lift conv ;; ensure_dir parent ;;; k dp) w
    = k d w'
    /\ files w' = files w /\ fetch_log w' = fetch_log w
    /\ dirs w ⊆ dirs w'
    /\ dirs w' ⊆ dirs w ∪ list_to_set (Path.parents hd ++ Path.parents ht
                                         ++ Path.parents parent)
    /\ isdir_in w' hd = true /\ isdir_in w' ht = true /\ isdir_in w' parent = true
    /\ (isdir_in w hd = true -> isdir_in w ht = true -> isdir_in w parent = true ->
        w' = w).
Proof.
  intros -> H1 H2 H3.
  destruct (ensure_dir_ok w hd H1) as (w1 & E1 & F1 & L1 & D1 & U1 & I1 & P1).
  destruct (ensure_dir_ok w1 ht) as (w2 & E2 & F2 & L2 & D2 & U2 & I2 & P2);
    [by apply (creatable_mono w)|].
  destruct (ensure_dir_ok w2 parent) as (w3 & E3 & F3 & L3 & D3 & U3 & I3 & P3).
  { apply (creatable_mono w); [set_solver | congruence | done]. }
  exists w3. rewrite (bind_ok _ _ _ _ _ E1), (bind_ok _ _ _ _ _ E2).
  unfold bind at 1, lift. rewrite (bind_ok _ _ _ _ _ E3).
  split; [done|]. split; [congruence|]. split; [congruence|].
  split; [clear -D1 D2 D3; set_solver|]. split.
  { rewrite !list_to_set_app_L. intros x Hx. apply U3 in Hx.
    apply elem_of_union in Hx as [Hx|Hx]; [|by repeat (apply elem_of_union; right)].
    apply U2 in Hx.
    apply elem_of_union in Hx as [Hx|Hx];
      [|apply elem_of_union; right; apply elem_of_union; right;
        apply elem_of_union; by left].
    apply U1 in Hx.
    apply elem_of_union in Hx as [Hx|Hx]; [by apply elem_of_union; left|].
    apply elem_of_union; right. apply elem_of_union; by left. }
  split; [apply (isdir_in_mono w1); [set_solver | done]|].
  split; [by apply (isdir_in_mono w2)|]. split; [done|].
  intros J1 J2 J3. rewrite (P1 J1) in *. rewrite (P2 J2) in *. by apply P3.
Qed.




(** C4, as stated, fails: with an empty name the destination is the
    existing root itself and the error is the one of the empty name, which
    does not name the path. *)
Lemma download_existing_root_other_error :
  exists_in w0 (dest_path E0 default_root "") = true
  /\ (download_file E0 "https://example.org/f.csv" "" default_root false false w0).1
     = Raise (ValueError root_msg)
  /\ root_msg <> exists_msg (dest_path E0 default_root "").
Proof. repeat split; try (vm_compute; reflexivity). discriminate. Qed.

(** C4, amended. With [zipfile=False], [replace=False], a non-empty name, a
    URL that the normaliser accepts, and base folders and a destination
    parent that are there or can be created: when the destination exists,
    the call raises the [ValueError] that names it, nothing is fetched and
    no file is written or changed. *)
Theorem download_existing_conflict (E : env) (url name root : string)
    (w : world) (d : string) :
  _convert_url_to_downloadable url = Ok d ->
  name <> EmptyString ->
  creatable w (home_of E +:+ "/data/") ->
  creatable w (home_of E +:+ "/tmp/") ->
  creatable w (Path.dirname (dest_path E root name)) ->
  exists_in w (dest_path E root name) = true ->
  exists w',
    download_file E url name root false false w
    = (Raise (ValueError (exists_msg (dest_path E root name))), w')
    /\ files w' = files w /\ fetch_log w' = fetch_log w.
Proof.
  intros Hconv Hname H1 H2 H3 Hex. unfold download_file. cbv zeta.
  match goal with
  | |- context [bind (lift _) (fun dp => bind (ensure_dir _) (fun _ => @?k dp))] =>
      destruct (download_setup w _ _ _ _ d k Hconv H1 H2 H3)
        as (w' & Heq & Hf & Hl & Hd & _)
  end.
  exists w'. split; [|done]. rewrite Heq.
  destruct name as [|c name]; [done|]. cbn [String.length Nat.eqb].
  unfold bind, path_exists. rewrite (exists_in_mono w w') by done. reflexivity.
Qed.

Lemma download_existing_conflict_witness :
  exists w',
    download_file E0 "https://example.org/f.csv" "old.csv" "~root/data" false false wr
    = (Raise (ValueError (exists_msg "/root/data/old.csv")), w')
    /\ files w' = files wr /\ fetch_log w' = fetch_log wr.
Proof.
  apply (download_existing_conflict E0 "https://example.org/f.csv" "old.csv"
           "~root/data" wr "https://example.org/f.csv").
  - reflexivity.
  - discriminate.
  - split; [reflexivity | right; vm_compute; reflexivity].
  - split; [reflexivity | right; vm_compute; reflexivity].
  - split; [reflexivity | left; vm_compute; reflexivity].
  - vm_compute; reflexivity.
Defined.

Example download_fresh :
  download_file E0 "https://example.org/f.csv" "new.csv" default_root false false w0
  = (Ok tt, mk_world (dirs w0) (<["/home/u/data/new.csv" := Bytes "a,b"]> (files w0))
                     ["https://example.org/f.csv"]).
Proof. vm_compute. reflexivity. Qed.

(** ** [load_fmri_data] *)

Section LoadFmriFacts.

Context {A : Type}.
Variable read_volume : string -> result (list (list A)).
Variable zscore : list (list A) -> list (list A).

Lemma apply_mask_fits (m : list bool) (v : list (list A)) :
  Forall (fun row => length row = length m) v ->
  apply_mask m v = Ok (select m <$> v).
Proof.
  intros Hfit. unfold apply_mask.
  replace (forallb _ v) with true; [done|].
  symmetry. apply forallb_forall. intros row Hin.
  apply Nat.eqb_eq. rewrite Forall_forall in Hfit. apply Hfit.
  by apply list_elem_of_In.
Qed.

Lemma load_one_per_file (dz : bool) (mask : option (list bool)) (f : string)
    (v : list (list A)) :
  read_volume f = Ok v ->
  (forall m, mask = Some m -> Forall (fun row => length row = length m) v) ->
  load_one read_volume zscore dz mask f = Ok (per_file zscore dz mask v).
Proof.
  intros Hread Hfit. unfold load_one, per_file. rewrite Hread. cbn.
  destruct mask as [m|]; [|done]. by rewrite apply_mask_fits by auto.
Qed.

Lemma load_all_per_file (dz : bool) (mask : option (list bool))
    (files : list string) (vs : list (list (list A))) :
  Forall2 (fun f v => read_volume f = Ok v) files vs ->
  (forall m, mask = Some m -> Forall (Forall (fun row => length row = length m)) vs) ->
  Forall2 (fun f a => load_one read_volume zscore dz mask f = Ok a)
          files (per_file zscore dz mask <$> vs).
Proof.
  induction 1 as [|f v files vs Hf _ IH]; intros Hfit; cbn; constructor.
  - apply load_one_per_file; [done|]. intros m Hm.
    specialize (Hfit m Hm). by apply Forall_cons in Hfit as [? _].
  - apply IH. intros m Hm. specialize (Hfit m Hm). by apply Forall_cons in Hfit as [_ ?].
Qed.

(** The loop appends one array per file, in the order of the files. *)
Lemma load_loop_appends (dz : bool) (mask : option (list bool))
    (files : list string) (arrs data : list (list (list A))) :
  Forall2 (fun f a => load_one read_volume zscore dz mask f = Ok a) files arrs ->
  load_loop read_volume zscore dz mask files data = Ok (data ++ arrs).
Proof.
  intros H. revert data. induction H as [|f a files arrs Hf _ IH]; intros data.
  - cbn. by rewrite app_nil_r.
  - cbn [load_loop]. rewrite Hf. cbn. rewrite IH. by rewrite <- app_assoc.
Qed.

Lemma vstack_concat (n : nat) (data : list (list (list A))) :
  data <> [] ->
  Forall (Forall (fun row => length row = n)) data ->
  vstack data = Ok (concat data).
Proof.
  intros Hne Hall. unfold vstack. destruct data as [|a data]; [done|].
  assert (Hrows : Forall (fun row => length row = n) (concat (a :: data)))
    by by apply Forall_concat.
  destruct (concat (a :: data)) as [|r rows]; [done|].
  apply Forall_cons in Hrows as [Hr Hrows].
  replace (forallb _ rows) with true; [done|].
  symmetry. apply forallb_forall. intros row Hin. apply Nat.eqb_eq.
  rewrite Forall_forall in Hrows. rewrite Hr. apply Hrows. by apply list_elem_of_In.
Qed.

Lemma length_concat_sum (l : list (list (list A))) :
  length (concat l) = sum_list (length <$> l).
Proof.
  induction l as [|a l IH]; [done|]. cbn. rewrite length_app, IH. done.
Qed.

(** C8. For files that load, with a mask (if any) of the shape of the
    volumes and time-points of one size, the result is the concatenation,
    in input order, of one array per file; with [do_zscore] that array is
    the standardisation of this file's (masked) data alone, and the mask is
    applied before it.  As the standardisation keeps the number of
    time-points, the result has as many as the files together. *)
Theorem load_fmri_data_concat (files : list string) (vs : list (list (list A)))
    (dz : bool) (mask : option (list bool)) (n : nat) :
  files <> [] ->
  Forall2 (fun f v => read_volume f = Ok v) files vs ->
  (forall m, mask = Some m -> Forall (Forall (fun row => length row = length m)) vs) ->
  Forall (fun v => Forall (fun row => length row = n) (per_file zscore dz mask v)) vs ->
  (forall a, length (zscore a) = length a) ->
  load_fmri_data read_volume zscore files dz mask
  = Ok (concat (per_file zscore dz mask <$> vs))
  /\ length (concat (per_file zscore dz mask <$> vs)) = sum_list (length <$> vs).
Proof.
  intros Hne Hread Hfit Hwidth Hz. split.
  - unfold load_fmri_data.
    rewrite (load_loop_appends dz mask files (per_file zscore dz mask <$> vs) []).
    + cbn. apply (vstack_concat n).
      * destruct Hread; [done | discriminate].
      * by apply Forall_fmap.
    + by apply load_all_per_file.
  - rewrite length_concat_sum, <- list_fmap_compose. f_equal.
    apply list_fmap_ext. intros _ v _. unfold per_file. cbn.
    destruct dz; rewrite ?Hz; destruct mask; by rewrite ?length_fmap.
Qed.

End LoadFmriFacts.

Lemma load_fmri_data_concat_witness :
  load_fmri_data read_volume0 centre0 ["run1.nii"; "run2.nii"] true
    (Some [true; false; true])
  = Ok (centre0 [[1; 3]; [3; 5]] ++ centre0 [[10; 30]; [11; 33]; [12; 36]])%Z
  /\ length (centre0 [[1; 3]; [3; 5]] ++ centre0 [[10; 30]; [11; 33]; [12; 36]])%Z = 2 + 3.
Proof.
  destruct (load_fmri_data_concat read_volume0 centre0 ["run1.nii"; "run2.nii"]
              [[[1; 2; 3]; [3; 4; 5]]; [[10; 20; 30]; [11; 22; 33]; [12; 24; 36]]]%Z
              true (Some [true; false; true]) 2) as [Hres Hlen].
  - discriminate.
  - repeat constructor.
  - intros m [= <-]. repeat constructor.
  - repeat constructor.
  - intros [|r a]; [done|]. cbn. by rewrite length_fmap.
  - split; [exact Hres | exact Hlen].
Defined.

Example load_fmri_pooled_differs :
  load_fmri_data read_volume0 centre0 ["run1.nii"; "run2.nii"] true None
  = Ok [[0; 0; 0]; [2; 2; 2]; [0; 0; 0]; [1; 2; 3]; [2; 4; 6]]%Z
  /\ centre0 ([[1; 2; 3]; [3; 4; 5]] ++ [[10; 20; 30]; [11; 22; 33]; [12; 24; 36]])%Z
     = [[0; 0; 0]; [2; 2; 2]; [9; 18; 27]; [10; 20; 30]; [11; 22; 33]]%Z.
Proof. split; reflexivity. Qed.

Example load_fmri_no_files :
  load_fmri_data read_volume0 centre0 [] false None
  = Raise (ValueError "need at least one array to concatenate").
Proof. reflexivity. Qed.

(* ================================================================== *)
(** * Further properties *)

(** ** More on the string primitives *)

Lemma index_absent (x : string) (l : list string) :
  x ∉ l -> PyStr.index x l = None.
Proof.
  induction l as [|y l IH]; [done|].
  intros [Hne Hnin]%not_elem_of_cons. cbn [PyStr.index].
  destruct (String.eqb_spec y x); [congruence|]. by rewrite IH.
Qed.

Lemma startswith_app_l (p q s : string) :
  PyStr.startswith (p +:+ q) s = true -> PyStr.startswith p s = true.
Proof.
  revert s. induction p as [|a p IH]; intros s; [done|].
  rewrite sapp_cons. cbn [PyStr.startswith]. destruct s as [|b s]; [done|].
  intros [-> H]%andb_true_iff. cbn. by apply IH.
Qed.

Lemma contains_app_l (p q s : string) :
  PyStr.contains (p +:+ q) s = true -> PyStr.contains p s = true.
Proof.
  unfold PyStr.contains. induction s as [|c s IH]; cbn [PyStr.find].
  - destruct (PyStr.startswith (p +:+ q) "") eqn:H; [|done].
    by rewrite (startswith_app_l _ _ _ H).
  - destruct (PyStr.startswith (p +:+ q) (String c s)) eqn:H.
    + by rewrite (startswith_app_l _ _ _ H).
    + destruct (PyStr.startswith p (String c s)); [done|].
      destruct (PyStr.find (p +:+ q) s); [|done].
      intros _. specialize (IH eq_refl). by destruct (PyStr.find p s).
Qed.

Lemma split_aux_skip (sep a s : string) :
  PyStr.split_aux sep (String.length a) (a +:+ s) = PyStr.split_aux sep 0 s.
Proof. induction a as [|x a IH]; [done|]. rewrite sapp_cons. exact IH. Qed.

(** Without an occurrence of the separator there is one part. *)
Lemma split_absent (sep s : string) :
  PyStr.contains sep s = false -> PyStr.split sep s = [s].
Proof.
  unfold PyStr.split. induction s as [|c s IH]; [done|].
  intros [Hp Hc]%contains_cons_false. cbn [PyStr.split_aux].
  rewrite Hp. by rewrite IH.
Qed.

(** With one occurrence there are two: what is before it and what is after. *)
Lemma split_single (sep a post : string) :
  sep <> EmptyString ->
  PyStr.find sep (a +:+ sep +:+ post) = Some (String.length a) ->
  PyStr.contains sep post = false ->
  PyStr.split sep (a +:+ sep +:+ post) = [a; post].
Proof.
  intros Hne Hf Hpost. unfold PyStr.split. induction a as [|c a IH].
  - destruct sep as [|o sep]; [done|]. rewrite sapp_nil.
    pose proof (startswith_app (String o sep) post) as Hp.
    rewrite sapp_cons in *. cbn [PyStr.split_aux]. rewrite Hp.
    replace (String.length (String o sep) - 1) with (String.length sep)
      by (cbn [String.length]; lia).
    rewrite split_aux_skip.
    pose proof (split_absent _ _ Hpost) as Hs. unfold PyStr.split in Hs.
    by rewrite Hs.
  - rewrite sapp_cons in *. cbn [String.length] in Hf.
    apply find_cons_S in Hf as [Hp Hf].
    cbn [PyStr.split_aux]. rewrite Hp. by rewrite IH.
Qed.

Lemma last_item_two (a b : string) : last_item [a; b] = b.
Proof. reflexivity. Qed.

(** ** Drive links that are no share links *)

(** X1. A URL with the drive marker and no [d] segment, such as an
    [open?id=] link, is refused with the [ValueError] of [list.index]. *)
Theorem convert_drive_no_d_segment (url : string) :
  PyStr.contains drive_marker url = true ->
  "d" ∉ PyStr.split "/" url ->
  _convert_url_to_downloadable url = Raise (ValueError "'d' is not in list").
Proof.
  intros Hm Hd. unfold _convert_url_to_downloadable. rewrite Hm. cbn zeta.
  by rewrite index_absent.
Qed.

Lemma convert_drive_no_d_segment_witness :
  _convert_url_to_downloadable "https://drive.google.com/open?id=1AbC"
  = Raise (ValueError "'d' is not in list").
Proof.
  apply convert_drive_no_d_segment; [reflexivity|].
  intros H. vm_compute in H.
  repeat (apply elem_of_cons in H as [H|H]; [discriminate|]).
  by apply elem_of_nil in H.
Defined.

(** X2. A URL with the drive marker whose last segment is the first [d]
    segment has no identifier: the lookup after [d] ends in an
    [IndexError]. *)
Theorem convert_drive_d_last (pre : list string) (url : string) :
  Forall no_slash pre ->
  "d" ∉ pre ->
  url = PyStr.join "/" (pre ++ ["d"]) ->
  PyStr.contains drive_marker url = true ->
  _convert_url_to_downloadable url = Raise IndexError.
Proof.
  intros Hall Hd -> Hm. unfold _convert_url_to_downloadable. rewrite Hm.
  cbn zeta. rewrite split_join.
  - rewrite index_app_first by done.
    rewrite (proj2 (lookup_ge_None _ _)); [done|]. rewrite length_app. cbn. lia.
  - by destruct pre.
  - apply Forall_app. split; [done|]. by repeat constructor.
Qed.

Lemma convert_drive_d_last_witness :
  _convert_url_to_downloadable "https://drive.google.com/file/d" = Raise IndexError.
Proof.
  apply (convert_drive_d_last ["https:"; ""; "drive.google.com"; "file"]).
  - repeat constructor.
  - intros H. repeat (apply elem_of_cons in H as [H|H]; [discriminate|]).
    by apply elem_of_nil in H.
  - reflexivity.
  - reflexivity.
Defined.

(** ** Interactive links that are accepted *)

Lemma find_contains (sub s : string) (n : nat) :
  PyStr.find sub s = Some n -> PyStr.contains sub s = true.
Proof. unfold PyStr.contains. by intros ->. Qed.

(** X3. A github URL in which [data-8/] occurs once, followed by the
    repository and a separator, and in which [gh-pages/] occurs once, gives
    the interactive link of that repository and of the path after
    [gh-pages/]. *)
Theorem url_to_interact_github (a repo r b name url url_type : string) :
  PyStr.contains "github.com" url = true ->
  url = a +:+ "data-8/" +:+ repo +:+ "/" +:+ r ->
  PyStr.find "data-8/" url = Some (String.length a) ->
  PyStr.contains "data-8/" (repo +:+ "/" +:+ r) = false ->
  no_slash repo ->
  url = b +:+ "gh-pages/" +:+ name ->
  PyStr.find "gh-pages/" url = Some (String.length b) ->
  PyStr.contains "gh-pages/" name = false ->
  url_to_interact url url_type = Ok (interact_url url_type repo name).
Proof.
  intros Hg Hu1 Hf1 Hc1 Hrepo Hu2 Hf2 Hc2.
  assert (Hm : PyStr.contains "data-8" url = true).
  { apply (contains_app_l "data-8" "/"). by apply find_contains in Hf1. }
  assert (S1 : PyStr.split "data-8/" url = [a; repo +:+ "/" +:+ r]).
  { rewrite Hu1 in Hf1 |- *. by apply split_single. }
  assert (S2 : PyStr.split "gh-pages/" url = [b; name]).
  { rewrite Hu2 in Hf2 |- *. by apply split_single. }
  unfold url_to_interact. cbn [existsb]. rewrite Hm, Hg. cbn [orb negb rbind].
  rewrite S1, S2, !last_item_two, split_slash_cons by done. reflexivity.
Qed.

Lemma url_to_interact_github_witness :
  url_to_interact "https://github.com/data-8/textbook/gh-pages/notebooks/a.ipynb" "data8"
  = Ok (interact_url "data8" "textbook" "notebooks/a.ipynb").
Proof.
  apply (url_to_interact_github "https://github.com/" "textbook"
           "gh-pages/notebooks/a.ipynb" "https://github.com/data-8/textbook/"
           "notebooks/a.ipynb"); reflexivity.
Defined.

(** X4. A github URL of a data-8 repository without [gh-pages/] in it is
    accepted all the same, and the path of the interactive link is then
    the whole URL. *)
Theorem url_to_interact_github_no_pages (a repo r url url_type : string) :
  PyStr.contains "github.com" url = true ->
  url = a +:+ "data-8/" +:+ repo +:+ "/" +:+ r ->
  PyStr.find "data-8/" url = Some (String.length a) ->
  PyStr.contains "data-8/" (repo +:+ "/" +:+ r) = false ->
  no_slash repo ->
  PyStr.contains "gh-pages/" url = false ->
  url_to_interact url url_type = Ok (interact_url url_type repo url).
Proof.
  intros Hg Hu1 Hf1 Hc1 Hrepo Hc2.
  assert (Hm : PyStr.contains "data-8" url = true).
  { apply (contains_app_l "data-8" "/"). by apply find_contains in Hf1. }
  assert (S1 : PyStr.split "data-8/" url = [a; repo +:+ "/" +:+ r]).
  { rewrite Hu1 in Hf1 |- *. by apply split_single. }
  unfold url_to_interact. cbn [existsb]. rewrite Hm, Hg. cbn [orb negb rbind].
  rewrite S1, (split_absent _ _ Hc2), last_item_two, split_slash_cons by done.
  reflexivity.
Qed.

Lemma url_to_interact_github_no_pages_witness :
  url_to_interact "https://github.com/data-8/textbook/blob/master/a.ipynb" "data8"
  = Ok (interact_url "data8" "textbook"
          "https://github.com/data-8/textbook/blob/master/a.ipynb").
Proof.
  apply (url_to_interact_github_no_pages "https://github.com/" "textbook"
           "blob/master/a.ipynb"); reflexivity.
Defined.

(** X5. A course-site URL (no github host) in which [data8.org/] occurs
    once, followed by the repository, a separator and a path, gives the
    interactive link of that repository and path, provided the repository
    with its separator occurs in the URL only there. *)
Theorem url_to_interact_course_site (a repo name url url_type : string) :
  PyStr.contains "github.com" url = false ->
  url = a +:+ "data8.org/" +:+ repo +:+ "/" +:+ name ->
  PyStr.find "data8.org/" url = Some (String.length a) ->
  PyStr.contains "data8.org/" (repo +:+ "/" +:+ name) = false ->
  no_slash repo ->
  PyStr.find (repo +:+ "/") url = Some (String.length (a +:+ "data8.org/")) ->
  PyStr.contains (repo +:+ "/") name = false ->
  url_to_interact url url_type = Ok (interact_url url_type repo name).
Proof.
  intros Hg Hu Hf1 Hc1 Hrepo Hf2 Hc2.
  assert (Hm : PyStr.contains "data8.org" url = true).
  { apply (contains_app_l "data8.org" "/"). by apply find_contains in Hf1. }
  assert (S1 : PyStr.split "data8.org/" url = [a; repo +:+ "/" +:+ name]).
  { rewrite Hu in Hf1 |- *. by apply split_single. }
  assert (Hu' : url = (a +:+ "data8.org/") +:+ (repo +:+ "/") +:+ name)
    by by rewrite Hu, !string_app_assoc.
  assert (S2 : PyStr.split (repo +:+ "/") url = [a +:+ "data8.org/"; name]).
  { rewrite Hu' in Hf2 |- *. apply split_single; [by destruct repo | done | done]. }
  unfold url_to_interact. cbn [existsb]. rewrite Hm, Hg, orb_true_r.
  cbn [orb negb rbind].
  rewrite S1, last_item_two, split_slash_cons by done. cbn [first_item hd].
  by rewrite S2, last_item_two.
Qed.

Lemma url_to_interact_course_site_witness :
  url_to_interact "http://data8.org/materials/lec/lec01.ipynb" "ds8"
  = Ok (interact_url "ds8" "materials" "lec/lec01.ipynb").
Proof.
  apply (url_to_interact_course_site "http://" "materials" "lec/lec01.ipynb");
    reflexivity.
Defined.

(** ** The cell loop without [remove_cell] *)

Lemma clean_cell_fields (co : bool) (c : cell) :
  cell_type (clean_cell co c) = cell_type c
  /\ source (clean_cell co c) = source c
  /\ execution_count (clean_cell co c) = None
  /\ prompt_number (clean_cell co c) = None
  /\ outputs (clean_cell co c) = if co then [] else outputs c.
Proof. unfold clean_cell. by destruct co. Qed.

(** X6. Without [remove_cell] the document keeps its number of cells and
    the type of each; a cell that is no code cell comes back as it is, and
    a code cell without the marker keeps its source. *)
Theorem strip_cells_keep_shape (marker : string) (co : bool) (cs : list cell) :
  length (strip_cells marker false co cs) = length cs
  /\ forall i c, cs !! i = Some c ->
       exists c', strip_cells marker false co cs !! i = Some c'
         /\ cell_type c' = cell_type c
         /\ (is_code c = false -> c' = c)
         /\ (PyStr.find marker (source c) = None -> source c' = source c).
Proof.
  rewrite strip_cells_keep. split; [by rewrite length_fmap|].
  intros i c Hi. exists (sanitize_cell marker co c).
  split; [by rewrite list_lookup_fmap, Hi|].
  split; [apply sanitize_type|]. unfold sanitize_cell. split.
  - by intros ->.
  - intros ->. destruct (negb (is_code c)); [done|].
    apply clean_cell_fields.
Qed.

(** X7. Without [remove_cell], every code cell comes back with a null
    execution count and without a prompt number, whatever [clean_outputs]
    is; its outputs are emptied with [clean_outputs] and are the ones it
    had without it. *)
Theorem strip_cells_keep_counts (marker : string) (co : bool) (cs : list cell)
    (i : nat) (c : cell) :
  cs !! i = Some c ->
  is_code c = true ->
  exists c', strip_cells marker false co cs !! i = Some c'
    /\ execution_count c' = None
    /\ prompt_number c' = None
    /\ outputs c' = if co then [] else outputs c.
Proof.
  intros Hi Hcode. rewrite strip_cells_keep.
  exists (sanitize_cell marker co c). split; [by rewrite list_lookup_fmap, Hi|].
  unfold sanitize_cell. rewrite Hcode. cbn [negb].
  destruct (PyStr.find marker (source c)) as [ix|].
  - destruct (clean_cell_fields co (truncate_source marker ix c))
      as (_ & _ & He & Hp & Ho). by rewrite He, Hp, Ho.
  - destruct (clean_cell_fields co c) as (_ & _ & He & Hp & Ho).
    by rewrite He, Hp, Ho.
Qed.

Lemma strip_cells_keep_counts_witness :
  exists c', strip_cells "### STUDENT ANSWER" false false [text_cell; plain_cell] !! 1
             = Some c'
    /\ execution_count c' = None
    /\ prompt_number c' = None
    /\ outputs c' = ["1"].
Proof.
  apply (strip_cells_keep_counts "### STUDENT ANSWER" false
           [text_cell; plain_cell] 1 plain_cell); reflexivity.
Defined.

(** ** Sanitising twice *)

Lemma take_cons (n : nat) (c : ascii) (s : string) :
  PyStr.take (S n) (String c s) = String c (PyStr.take n s).
Proof. reflexivity. Qed.

Lemma take_zero (s : string) : PyStr.take 0 s = EmptyString.
Proof. by destruct s. Qed.

Lemma find_zero (sub s : string) :
  PyStr.find sub s = Some 0 -> PyStr.startswith sub s = true.
Proof.
  destruct s as [|c s]; cbn [PyStr.find];
    destruct (PyStr.startswith sub _); try done.
  by destruct (PyStr.find sub s).
Qed.

Lemma startswith_length (sub s : string) :
  PyStr.startswith sub s = true -> String.length sub <= String.length s.
Proof.
  revert s. induction sub as [|a sub IH]; intros [|b s]; cbn; try done; try lia.
  intros [_ H]%andb_true_iff. apply IH in H. lia.
Qed.

Lemma find_length (sub s : string) (ix : nat) :
  PyStr.find sub s = Some ix -> ix + String.length sub <= String.length s.
Proof.
  revert ix. induction s as [|c s IH]; intros [|ix] Hf.
  - by apply startswith_length, find_zero.
  - cbn in Hf. by destruct (PyStr.startswith sub "").
  - by apply startswith_length, find_zero.
  - apply find_cons_S in Hf as [_ Hf]. apply IH in Hf. cbn. lia.
Qed.

(** Whether [sub] starts a string is decided by its first [length sub]
    characters. *)
Lemma startswith_take_app (sub t x : string) (k : nat) :
  String.length sub <= k -> k <= String.length t ->
  PyStr.startswith sub (PyStr.take k t +:+ x) = PyStr.startswith sub t.
Proof.
  revert t k. induction sub as [|a sub IH]; intros t k Hk Ht; [done|].
  destruct k as [|k]; [cbn in Hk; lia|].
  destruct t as [|b t]; [cbn in Ht; lia|].
  rewrite take_cons, sapp_cons. cbn [PyStr.startswith].
  rewrite IH; [done | cbn in Hk; lia | cbn in Ht; lia].
Qed.

(** The first occurrence stays where it is when the text after it is
    replaced. *)
Lemma find_take_app (sub s x : string) (ix : nat) :
  PyStr.find sub s = Some ix ->
  PyStr.find sub (PyStr.take (ix + String.length sub) s +:+ x) = Some ix.
Proof.
  revert ix. induction s as [|c s IH]; intros ix Hf.
  - pose proof (find_length _ _ _ Hf) as Hlen. cbn in Hlen.
    assert (ix = 0) as -> by lia. apply find_zero in Hf.
    destruct sub; [by destruct x | done].
  - pose proof (find_length _ _ _ Hf) as Hlen.
    destruct ix as [|ix].
    + apply find_zero in Hf.
      assert (Hs : PyStr.startswith sub
                     (PyStr.take (0 + String.length sub) (String c s) +:+ x) = true)
        by (rewrite startswith_take_app; [done | lia | done]).
      destruct (PyStr.take (0 + String.length sub) (String c s) +:+ x);
        cbn [PyStr.find]; by rewrite Hs.
    + apply find_cons_S in Hf as [Hp Hf].
      assert (Hs : PyStr.startswith sub
                     (PyStr.take (S (ix + String.length sub)) (String c s) +:+ x)
                   = false)
        by (rewrite startswith_take_app; [done | lia | cbn in *; lia]).
      change (S ix + String.length sub) with (S (ix + String.length sub)).
      rewrite take_cons, sapp_cons in *. cbn [PyStr.find].
      rewrite Hs. by rewrite IH.
Qed.

Lemma take_take_app (k : nat) (s x : string) :
  k <= String.length s -> PyStr.take k (PyStr.take k s +:+ x) = PyStr.take k s.
Proof.
  revert s. induction k as [|k IH]; intros s Hk; [by rewrite !take_zero|].
  destruct s as [|c s]; [cbn in Hk; lia|].
  rewrite take_cons, sapp_cons, take_cons, IH; [done | cbn in Hk; lia].
Qed.

Lemma sanitize_cell_code (marker : string) (co : bool) (c : cell) :
  is_code c = true ->
  sanitize_cell marker co c
  = match PyStr.find marker (source c) with
    | Some ix => clean_cell co (truncate_source marker ix c)
    | None => clean_cell co c
    end.
Proof. intros Hcode. unfold sanitize_cell. by rewrite Hcode. Qed.

Lemma clean_cell_code (co : bool) (c : cell) : is_code (clean_cell co c) = is_code c.
Proof. unfold is_code. by destruct (clean_cell_fields co c) as (-> & _). Qed.

Lemma clean_cell_idem (co : bool) (c : cell) :
  clean_cell co (clean_cell co c) = clean_cell co c.
Proof. unfold clean_cell. by destruct co. Qed.

Lemma sanitize_cell_idem (marker : string) (co : bool) (c : cell) :
  sanitize_cell marker co (sanitize_cell marker co c) = sanitize_cell marker co c.
Proof.
  destruct (is_code c) eqn:Hcode.
  - rewrite (sanitize_cell_code marker co c Hcode).
    destruct (PyStr.find marker (source c)) as [ix|] eqn:Hf.
    + pose proof (find_take_app _ _ PyStr.nl _ Hf) as Hf'.
      pose proof (take_take_app _ _ PyStr.nl (find_length _ _ _ Hf)) as Ht.
      rewrite sanitize_cell_code by by rewrite clean_cell_code.
      assert (Hsrc : source (clean_cell co (truncate_source marker ix c))
                     = PyStr.take (ix + String.length marker) (source c) +:+ PyStr.nl)
        by by destruct (clean_cell_fields co (truncate_source marker ix c))
             as (_ & -> & _).
      rewrite Hsrc, Hf'.
      rewrite <- (clean_cell_idem co (truncate_source marker ix c)) at 2.
      f_equal. unfold truncate_source at 1. rewrite Hsrc, Ht, <- Hsrc.
      by destruct (clean_cell co (truncate_source marker ix c)).
    + rewrite sanitize_cell_code by by rewrite clean_cell_code.
      destruct (clean_cell_fields co c) as (_ & -> & _).
      rewrite Hf. apply clean_cell_idem.
  - assert (Hid : sanitize_cell marker co c = c)
      by (unfold sanitize_cell; by rewrite Hcode).
    by rewrite !Hid.
Qed.

(** X8. Without [remove_cell], sanitising a sanitised document changes
    nothing: the marker is found where it was, and the source already ends
    with the marker and one newline. *)
Theorem strip_cells_idempotent (marker : string) (co : bool) (cs : list cell) :
  strip_cells marker false co (strip_cells marker false co cs)
  = strip_cells marker false co cs.
Proof.
  rewrite !strip_cells_keep, <- list_fmap_compose.
  apply list_fmap_ext. intros _ c _. apply sanitize_cell_idem.
Qed.

(** ** The cell loop with [remove_cell] *)

Lemma list_pair_ind {A} (P : list A -> Prop) :
  P [] -> (forall a, P [a]) ->
  (forall a b l, P l -> P (b :: l) -> P (a :: b :: l)) ->
  forall l, P l.
Proof.
  intros H0 H1 H2 l. enough (P l /\ forall a, P (a :: l)) by tauto.
  induction l as [|b l [IH1 IH2]]; [by split|]. split; [apply IH2|].
  intros a. by apply H2.
Qed.

Lemma has_marker_find (marker : string) (a : cell) :
  has_marker marker a = false ->
  is_code a = true -> PyStr.find marker (source a) = None.
Proof.
  unfold has_marker, PyStr.contains. intros H Hc. rewrite Hc in H. cbn in H.
  by destruct (PyStr.find marker (source a)).
Qed.

Lemma strip_cells_keep_head (marker : string) (co : bool) (a : cell)
    (rest : list cell) :
  has_marker marker a = false ->
  strip_cells marker true co (a :: rest)
  = sanitize_cell marker co a :: strip_cells marker true co rest.
Proof.
  intros Hm. unfold strip_cells, sanitize_cell. cbn [length]. rewrite strip_loop_S.
  change ((a :: rest) !! 0) with (Some a). cbv beta iota.
  destruct (is_code a) eqn:Hcode; cbn [negb].
  - rewrite (has_marker_find _ _ Hm Hcode).
    change (<[0 := clean_cell co a]> (a :: rest)) with (clean_cell co a :: rest).
    apply strip_loop_cons.
  - apply strip_loop_cons.
Qed.

Lemma strip_cells_remove_last (marker : string) (co : bool) (a : cell) :
  has_marker marker a = true -> strip_cells marker true co [a] = [].
Proof.
  unfold has_marker, PyStr.contains, strip_cells.
  intros [Hcode Hfind]%andb_true_iff. cbn [length]. rewrite strip_loop_S.
  change ([a] !! 0) with (Some a). cbv beta iota. rewrite Hcode. cbn [negb].
  by destruct (PyStr.find marker (source a)).
Qed.

Lemma strip_cells_remove_rec (marker : string) (co : bool) (cs : list cell) :
  strip_cells marker true co cs = strip_remove_spec marker co cs.
Proof.
  induction cs as [|a|a b l IH1 IH2] using list_pair_ind; [done|..].
  - cbn [strip_remove_spec]. destruct (has_marker marker a) eqn:Hm.
    + by apply strip_cells_remove_last.
    + by rewrite strip_cells_keep_head.
  - cbn [strip_remove_spec] in *. destruct (has_marker marker a) eqn:Hm.
    + by rewrite strip_cells_remove_skips, IH1.
    + by rewrite strip_cells_keep_head, IH2.
Qed.

(** X9. With [remove_cell] the loop over the shrinking list does what
    [strip_remove_spec] says: every code cell with the marker that the
    iterator reaches is removed, the cell right after a removed one is kept
    untouched, and every other cell is sanitised. *)
Theorem strip_cells_remove_spec (marker : string) (co : bool) (cs : list cell) :
  strip_cells marker true co cs = strip_remove_spec marker co cs.
Proof. apply strip_cells_remove_rec. Qed.

Lemma sanitize_keeps_unmarked (marker : string) (co : bool) (a : cell) :
  has_marker marker a = false ->
  has_marker marker (sanitize_cell marker co a) = false.
Proof.
  intros Hm. destruct (is_code a) eqn:Hcode.
  - rewrite sanitize_cell_code, (has_marker_find _ _ Hm Hcode) by done.
    unfold has_marker in *. rewrite clean_cell_code.
    by destruct (clean_cell_fields co a) as (_ & -> & _).
  - unfold sanitize_cell. by rewrite Hcode.
Qed.

(** X10. Where no code cell with the marker directly follows another one,
    [remove_cell] does remove them all: no cell of the result has the
    marker, and the result is shorter by the number of cells that had it. *)
Theorem strip_cells_remove_isolated (marker : string) (co : bool) (cs : list cell) :
  no_adjacent_markers marker cs ->
  Forall (fun c => has_marker marker c = false) (strip_cells marker true co cs)
  /\ length (strip_cells marker true co cs)
     + length (List.filter (has_marker marker) cs) = length cs.
Proof.
  rewrite strip_cells_remove_rec.
  induction cs as [|a|a b l IH1 IH2] using list_pair_ind; intros Hadj.
  - by split.
  - cbn [strip_remove_spec List.filter]. destruct (has_marker marker a) eqn:Hm.
    + by split.
    + split; [|done]. repeat constructor. by apply sanitize_keeps_unmarked.
  - destruct Hadj as [Hab Hadj].
    cbn [strip_remove_spec List.filter] in *.
    destruct (has_marker marker a) eqn:Hm.
    + rewrite (Hab eq_refl) in *.
      assert (Hl : no_adjacent_markers marker l)
        by (destruct l; [done | by destruct Hadj]).
      destruct (IH1 Hl) as [HF Hlen]. split.
      * constructor; [by apply Hab | done].
      * cbn [length] in *. lia.
    + destruct (IH2 Hadj) as [HF Hlen]. split.
      * constructor; [by apply sanitize_keeps_unmarked | done].
      * cbn [length] in *. lia.
Qed.

Lemma strip_cells_remove_isolated_witness :
  Forall (fun c => has_marker "### STUDENT ANSWER" c = false)
    (strip_cells "### STUDENT ANSWER" true true
       [answer_cell; text_cell; answer_cell; plain_cell])
  /\ length (strip_cells "### STUDENT ANSWER" true true
               [answer_cell; text_cell; answer_cell; plain_cell])
     + length (List.filter (has_marker "### STUDENT ANSWER")
                 [answer_cell; text_cell; answer_cell; plain_cell]) = 4.
Proof.
  apply (strip_cells_remove_isolated "### STUDENT ANSWER" true
           [answer_cell; text_cell; answer_cell; plain_cell]).
  cbn. repeat split; try done; intros _; reflexivity.
Defined.

(** ** Saving the sanitised notebook *)

Lemma contains_slash_cons (c : ascii) (s : string) :
  PyStr.contains "/" (String c s) = Ascii.eqb "/" c || PyStr.contains "/" s.
Proof.
  unfold PyStr.contains. cbn [PyStr.find]. rewrite startswith_char.
  destruct (Ascii.eqb "/" c); [done|]. by destruct (PyStr.find "/" s).
Qed.

Lemma no_slash_cons (c : ascii) (s : string) :
  no_slash (String c s) <-> Ascii.eqb c "/" = false /\ no_slash s.
Proof.
  unfold no_slash. rewrite contains_slash_cons, orb_false_iff.
  by rewrite (Ascii.eqb_sym "/" c).
Qed.

Lemma no_slash_app (a b : string) :
  no_slash (a +:+ b) <-> no_slash a /\ no_slash b.
Proof.
  induction a as [|c a IH].
  - rewrite sapp_nil. unfold no_slash at 2. cbn. tauto.
  - rewrite sapp_cons, !no_slash_cons, IH. tauto.
Qed.

Lemma rfind_zero (p : string) : PyStr.rfind_succ "/" p = 0 <-> no_slash p.
Proof.
  induction p as [|c p IH]; [done|].
  rewrite no_slash_cons, <- IH. cbn [PyStr.rfind_succ].
  destruct (PyStr.rfind_succ "/" p); [|split; [done | by intros [_ ?]]].
  destruct (Ascii.eqb c "/"); split; try done. by intros [? _].
Qed.

Lemma drop_zero (s : string) : PyStr.drop 0 s = s.
Proof. by destruct s. Qed.

Lemma basename_no_slash (p : string) : no_slash (Path.basename p).
Proof.
  unfold Path.basename. induction p as [|c p IH]; [done|].
  cbn [PyStr.rfind_succ]. destruct (PyStr.rfind_succ "/" p) as [|k] eqn:Hr.
  - apply rfind_zero in Hr. destruct (Ascii.eqb c "/") eqn:Hc.
    + exact IH.
    + rewrite drop_zero. by apply no_slash_cons.
  - exact IH.
Qed.

Lemma basename_bare (p : string) : no_slash p -> Path.basename p = p.
Proof.
  intros H%rfind_zero. unfold Path.basename. rewrite H. apply drop_zero.
Qed.

Lemma dirname_bare_empty (p : string) : no_slash p -> Path.dirname p = EmptyString.
Proof.
  intros H%rfind_zero. unfold Path.dirname. by rewrite H, take_zero.
Qed.

Lemma basename_join (p f : string) :
  no_slash f -> Path.basename (p +:+ "/" +:+ f) = f.
Proof.
  intros Hf. unfold Path.basename. change ("/" +:+ f) with (String "/" f).
  assert (Hr : PyStr.rfind_succ "/" (p +:+ String "/" f) = S (String.length p)).
  { induction p as [|c p IH].
    - rewrite sapp_nil. cbn [PyStr.rfind_succ].
      by rewrite (proj2 (rfind_zero f) Hf).
    - rewrite sapp_cons. cbn [PyStr.rfind_succ String.length]. by rewrite IH. }
  rewrite Hr. clear Hr. induction p as [|c p IH].
  - rewrite sapp_nil. cbn [String.length PyStr.drop]. apply drop_zero.
  - rewrite sapp_cons. exact IH.
Qed.

(** Joining the parts of a split gives the string back. *)
Lemma split_aux_nonempty (sep : string) (k : nat) (s : string) :
  PyStr.split_aux sep k s <> [].
Proof.
  revert k. induction s as [|c s IH]; intros k; [done|]. cbn [PyStr.split_aux].
  destruct k; [|apply IH]. destruct (PyStr.startswith sep (String c s)); [done|].
  by destruct (PyStr.split_aux sep 0 s).
Qed.

Lemma join_split_char (d : ascii) (s : string) :
  PyStr.join (String d "") (PyStr.split (String d "") s) = s.
Proof.
  unfold PyStr.split. induction s as [|c s IH]; [done|].
  cbn [PyStr.split_aux]. rewrite startswith_char. cbn [String.length Nat.sub].
  pose proof (split_aux_nonempty (String d "") 0 s) as Hne.
  destruct (PyStr.split_aux (String d "") 0 s) as [|h t]; [done|].
  destruct (Ascii.eqb_spec d c) as [->|_].
  - change (PyStr.join (String c "") ("" :: h :: t))
      with ("" +:+ String c "" +:+ PyStr.join (String c "") (h :: t)).
    by rewrite IH.
  - destruct t as [|x t]; [by rewrite <- IH|].
    change (PyStr.join (String d "") (String c h :: x :: t))
      with (String c h +:+ String d "" +:+ PyStr.join (String d "") (x :: t)).
    rewrite sapp_cons. by rewrite <- IH.
Qed.

Lemma split_dot_two (f name ext : string) :
  PyStr.split "." f = [name; ext] -> f = name +:+ "." +:+ ext.
Proof. intros H. by rewrite <- (join_split_char "." f), H. Qed.

(** The file that is written is not the notebook that was read. *)
Lemma save_file_fresh (nbpath dir name ext suffix : string) :
  PyStr.split "." (Path.basename nbpath) = [name; ext] ->
  no_slash suffix ->
  dir +:+ "/" +:+ save_name name suffix ext <> nbpath.
Proof.
  intros Hsplit Hsuf Heq. apply split_dot_two in Hsplit.
  pose proof (basename_no_slash nbpath) as Hb. rewrite Hsplit in Hb.
  apply no_slash_app in Hb as [Hname [_ Hext]%no_slash_app].
  assert (Hout : no_slash (save_name name suffix ext)).
  { unfold save_name. repeat (apply no_slash_app; split); done. }
  apply (f_equal Path.basename) in Heq.
  rewrite basename_join, Hsplit in Heq by done. unfold save_name in Heq.
  by apply (inj (String.app name)) in Heq.
Qed.

(** X11. When saving, a notebook whose file name does not have exactly one
    dot cannot be unpacked into name and extension: the call ends in a
    [ValueError], and nothing has been written or created by then. *)
Theorem strip_answers_bad_filename
    (nbpath marker suffix : string) (keep rm co : bool)
    (path_save : option string) (w : world) (nb : notebook) :
  files w !! nbpath = Some (NotebookFile nb) ->
  length (PyStr.split "." (Path.basename nbpath)) <> 2 ->
  exists msg,
    strip_answers nbpath marker suffix keep rm co true path_save w
    = (Raise (ValueError msg), w).
Proof.
  intros Hfile Hlen. unfold strip_answers, bind, nbformat_read, lift.
  rewrite Hfile.
  destruct (PyStr.split "." (Path.basename nbpath)) as [|a [|b [|c l]]];
    cbn; eauto. done.
Qed.

Lemma strip_answers_bad_filename_witness :
  exists msg,
    strip_answers "/home/u/course/hw.v2.ipynb" "### STUDENT ANSWER" "student"
      true false true true None
      (mk_world {["/home/u/course"]}
         {["/home/u/course/hw.v2.ipynb" := NotebookFile (mk_notebook [] "meta")]} [])
    = (Raise (ValueError msg),
       mk_world {["/home/u/course"]}
         {["/home/u/course/hw.v2.ipynb" := NotebookFile (mk_notebook [] "meta")]} []).
Proof.
  apply (strip_answers_bad_filename _ _ _ _ _ _ _ _ (mk_notebook [] "meta"));
    [reflexivity | vm_compute; lia].
Defined.

(** X12. When saving next to a notebook that is given by its bare file
    name, the directory to save in is the empty path, which is no directory
    and cannot be made: the call ends in a [FileNotFoundError] and nothing
    is written. *)
Theorem strip_answers_bare_name
    (nbpath marker suffix : string) (keep rm co : bool)
    (w : world) (nb : notebook) :
  files w !! nbpath = Some (NotebookFile nb) ->
  no_slash nbpath ->
  length (PyStr.split "." nbpath) = 2 ->
  strip_answers nbpath marker suffix keep rm co true None w
  = (Raise (FileNotFoundError ""), w).
Proof.
  intros Hfile Hbare Hlen. unfold strip_answers, bind, nbformat_read, lift.
  rewrite Hfile, basename_bare, dirname_bare_empty by done.
  by destruct (PyStr.split "." nbpath) as [|a [|b [|c l]]].
Qed.

Lemma strip_answers_bare_name_witness :
  strip_answers "hw.ipynb" "### STUDENT ANSWER" "student" true false true true None
    (mk_world ∅ {["hw.ipynb" := NotebookFile (mk_notebook [answer_cell] "meta")]} [])
  = (Raise (FileNotFoundError ""),
     mk_world ∅ {["hw.ipynb" := NotebookFile (mk_notebook [answer_cell] "meta")]} []).
Proof.
  apply (strip_answers_bare_name _ _ _ _ _ _ _ (mk_notebook [answer_cell] "meta"));
    reflexivity.
Defined.

(** Paths that end in a name. *)
Lemma rstrip_cons (c a : ascii) (s : string) :
  PyStr.rstrip c (String a s)
  = match PyStr.rstrip c s with
    | EmptyString => if Ascii.eqb a c then EmptyString else String a EmptyString
    | r => String a r
    end.
Proof. reflexivity. Qed.

Lemma rstrip_idem (c : ascii) (s : string) :
  PyStr.rstrip c (PyStr.rstrip c s) = PyStr.rstrip c s.
Proof.
  induction s as [|a s IH]; [done|]. rewrite rstrip_cons.
  destruct (PyStr.rstrip c s) as [|b r] eqn:Hr.
  - destruct (Ascii.eqb a c) eqn:Ha; [done|]. rewrite rstrip_cons. cbn. by rewrite Ha.
  - rewrite rstrip_cons, IH. done.
Qed.

Lemma rstrip_app_slash (p : string) :
  PyStr.rstrip "/" (p +:+ "/") = PyStr.rstrip "/" p.
Proof.
  induction p as [|a p IH]; [done|]. by rewrite sapp_cons, !rstrip_cons, IH.
Qed.








Lemma rfind_succ_join (p f : string) :
  no_slash f -> PyStr.rfind_succ "/" (p +:+ String "/" f) = S (String.length p).
Proof.
  intros Hf. induction p as [|c p IH].
  - rewrite sapp_nil. cbn [PyStr.rfind_succ].
    by rewrite (proj2 (rfind_zero f) Hf).
  - rewrite sapp_cons. cbn [PyStr.rfind_succ String.length]. by rewrite IH.
Qed.

(** The directory of a file below [p] is [p], up to trailing separators. *)
Lemma dirname_join (p f : string) :
  no_slash f -> p <> EmptyString ->
  Path.dirname (p +:+ "/" +:+ f) <> EmptyString
  /\ Path.norm (Path.dirname (p +:+ "/" +:+ f)) = Path.norm p.
Proof.
  intros Hf Hp. unfold Path.dirname. change ("/" +:+ f) with (String "/" f).
  rewrite rfind_succ_join by done.
  replace (PyStr.take (S (String.length p)) (p +:+ String "/" f)) with (p +:+ "/").
  2:{ change (String "/" f) with ("/" +:+ f). rewrite <- string_app_assoc.
      rewrite <- (take_app_exact (p +:+ "/") f) at 1.
      by rewrite string_app_length, Nat.add_1_r. }
  rewrite rstrip_app_slash. unfold Path.norm.
  destruct (PyStr.rstrip "/" p) as [|a r] eqn:Hr.
  - rewrite rstrip_app_slash, Hr. split; [by destruct p|].
    destruct p; [done|]. by rewrite sapp_cons.
  - split; [done|]. by rewrite <- Hr, rstrip_idem, Hr.
Qed.

Lemma isdir_in_dirname_join (w : world) (p f : string) :
  no_slash f -> isdir_in w p = true ->
  isdir_in w (Path.dirname (p +:+ "/" +:+ f)) = true.
Proof.
  intros Hf Hd. assert (Hp : p <> EmptyString) by (by intros ->).
  destruct (dirname_join p f Hf Hp) as [Hne Hnorm].
  unfold isdir_in in *. rewrite Hnorm. apply String.eqb_neq in Hne, Hp.
  rewrite Hne. by rewrite Hp in Hd.
Qed.




(** X14. With a suffix that has no path separator in it, the notebook that
    was read is never written to: whatever the flags and whatever the
    outcome, the file at [nbpath] holds afterwards what it held before. *)
Theorem strip_answers_keeps_original
    (nbpath marker suffix : string) (keep rm co save : bool)
    (path_save : option string) (w : world) :
  no_slash suffix ->
  files (strip_answers nbpath marker suffix keep rm co save path_save w).2 !! nbpath
  = files w !! nbpath.
Proof.
  intros Hsuf. unfold strip_answers, bind at 1, nbformat_read.
  destruct (files w !! nbpath) as [[b|nb]|] eqn:Hfile; cbn; try done.
  destruct save; [|done].
  unfold bind at 1. unfold bind at 1, lift.
  destruct (PyStr.split "." (Path.basename nbpath)) as [|name [|ext [|c l]]] eqn:Hs;
    cbn [unpack2 fst snd]; try (cbn; done).
  fold (save_dir nbpath path_save). fold (save_name name suffix ext).
  unfold bind. unfold ensure_dir, bind, isdir, makedirs, ret, nbformat_write.
  repeat match goal with
         | |- context [if ?b then _ else _] => destruct b
         | |- context [match open_error ?w1 ?f with _ => _ end] =>
             destruct (open_error w1 f)
         end; cbn; try done;
    (rewrite lookup_insert_ne; [done | by apply save_file_fresh]).
Qed.

Lemma strip_answers_keeps_original_witness :
  files (strip_answers "/home/u/course/hw.ipynb" "### STUDENT ANSWER" "student"
           true true true true None (nb_world [answer_cell; plain_cell])).2
    !! "/home/u/course/hw.ipynb"
  = files (nb_world [answer_cell; plain_cell]) !! "/home/u/course/hw.ipynb".
Proof. apply strip_answers_keeps_original. reflexivity. Defined.

(** A suffix with a separator can lead back to the notebook itself. *)
Example strip_answers_overwrites_with_slash_suffix :
  files (strip_answers "d/hw_/hw.ipynb" "### STUDENT ANSWER" "/hw"
           true false true true (Some "d")
           (mk_world {["d"; "d/hw_"]}
              {["d/hw_/hw.ipynb" := NotebookFile (mk_notebook [answer_cell] "meta")]} [])).2
    !! "d/hw_/hw.ipynb"
  = Some (NotebookFile
            (mk_notebook
               [mk_cell "code" ("x = 1" +:+ PyStr.nl +:+ "### STUDENT ANSWER" +:+ PyStr.nl)
                        [] None None] "meta")).
Proof. vm_compute. reflexivity. Qed.

(** ** Downloads that reach the network *)

Lemma ensure_dir_present (w : world) (p : string) :
  isdir_in w p = true -> ensure_dir p w = (Ok tt, w).
Proof. intros H. unfold ensure_dir, bind, isdir. by rewrite H. Qed.

Lemma download_setup_present {A} (w : world) (hd ht parent : string)
    (conv : result string) (d : string) (k : string -> M A) :
  conv = Ok d ->
  isdir_in w hd = true -> isdir_in w ht = true -> isdir_in w parent = true ->
  (ensure_dir hd ;;; ensure_dir ht ;;; dp <- lift conv ;; ensure_dir parent ;;; k dp) w
  = k d w.
Proof.
  intros -> H1 H2 H3.
  rewrite (bind_ok _ _ _ _ _ (ensure_dir_present w hd H1)).
  rewrite (bind_ok _ _ _ _ _ (ensure_dir_present w ht H2)).
  unfold bind at 1, lift.
  by rewrite (bind_ok _ _ _ _ _ (ensure_dir_present w parent H3)).
Qed.

Ltac download_present w d Hconv H1 H2 H3 :=
  unfold download_file; cbv zeta;
  match goal with
  | |- context [bind (lift _) (fun dp => bind (ensure_dir _) (fun _ => @?k dp))] =>
      rewrite (download_setup_present w _ _ _ _ d k Hconv H1 H2 H3)
  end.

(** The file that a download passes through has the directory of its
    destination. *)
Lemma rfind_succ_app (d f : string) :
  no_slash f -> PyStr.rfind_succ "/" (d +:+ f) = PyStr.rfind_succ "/" d.
Proof.
  intros Hf. induction d as [|a d IH].
  - rewrite sapp_nil. by apply rfind_zero.
  - rewrite sapp_cons. cbn [PyStr.rfind_succ]. by rewrite IH.
Qed.

Lemma rfind_succ_le (c : ascii) (d : string) :
  PyStr.rfind_succ c d <= String.length d.
Proof.
  induction d as [|a d IH]; [done|]. cbn [PyStr.rfind_succ String.length].
  destruct (PyStr.rfind_succ c d); [destruct (Ascii.eqb a c)|]; lia.
Qed.

Lemma take_app_le (k : nat) (d f : string) :
  k <= String.length d -> PyStr.take k (d +:+ f) = PyStr.take k d.
Proof.
  revert d. induction k as [|k IH]; intros d Hk; [by rewrite !take_zero|].
  destruct d as [|a d]; [cbn in Hk; lia|].
  rewrite sapp_cons, !take_cons, IH; [done | cbn in Hk; lia].
Qed.

Lemma dirname_app_no_slash (d f : string) :
  no_slash f -> Path.dirname (d +:+ f) = Path.dirname d.
Proof.
  intros Hf. unfold Path.dirname.
  by rewrite rfind_succ_app, take_app_le by (done || apply rfind_succ_le).
Qed.

Lemma isdir_in_slash (w : world) (p : string) :
  p <> EmptyString -> isdir_in w (p +:+ "/") = isdir_in w p.
Proof.
  intros Hp. unfold isdir_in, Path.norm. rewrite rstrip_app_slash.
  apply String.eqb_neq in Hp. rewrite Hp.
  replace (String.eqb (p +:+ "/") "") with false by (by destruct p).
  by destruct (PyStr.rstrip "/" p).
Qed.

(** A download to a destination that is no directory, without a partial
    file from before: the destination holds what the URL serves. *)
Lemma fetch_file_ok (E : env) (url dest b : string) (w : world) :
  remote E url = Some b ->
  isdir_in w (Path.dirname dest) = true ->
  isdir_in w dest = false ->
  isdir_in w (dest +:+ ".part") = false ->
  files w !! (dest +:+ ".part") = None ->
  _fetch_file E url dest w
  = (Ok tt, mk_world (dirs w) (<[dest := Bytes b]> (files w)) (fetch_log w ++ [url])).
Proof.
  intros Hr Hdir Hdest Hpart Hnone. unfold _fetch_file, open_error. rewrite Hr.
  cbv zeta. rewrite dirname_app_no_slash by done.
  change (isdir_in (mk_world (dirs w) (files w) (fetch_log w ++ [url])))
    with (isdir_in w).
  cbn [files dirs fetch_log]. rewrite Hpart, Hdir, orb_true_r, Hnone, Hdest.
  cbn. by rewrite delete_id.
Qed.

(** X15. With [zipfile=False], the folders in place, a name, a destination
    of a plain path that is no directory and is free or may be replaced,
    and no partial download from before next to it: the normalised URL is
    fetched, once, and what it serves is what the destination holds
    afterwards, all other files as they were; a URL that cannot be fetched
    is passed on as its error and leaves every file as it was. *)
Theorem download_fetches_file (E : env) (url name root : string) (replace : bool)
    (w : world) (d : string) :
  _convert_url_to_downloadable url = Ok d ->
  name <> EmptyString ->
  isdir_in w (home_of E +:+ "/data/") = true ->
  isdir_in w (home_of E +:+ "/tmp/") = true ->
  isdir_in w (Path.dirname (dest_path E root name)) = true ->
  Path.canonb (dest_path E root name) = true ->
  isdir_in w (dest_path E root name) = false ->
  isdir_in w (dest_path E root name +:+ ".part") = false ->
  files w !! (dest_path E root name +:+ ".part") = None ->
  replace = true \/ exists_in w (dest_path E root name) = false ->
  download_file E url name root false replace w
  = match remote E d with
    | Some b => (Ok tt, mk_world (dirs w)
                          (<[dest_path E root name := Bytes b]> (files w))
                          (fetch_log w ++ [d]))
    | None => (Raise (URLError d), mk_world (dirs w) (files w) (fetch_log w ++ [d]))
    end.
Proof.
  intros Hconv Hname H1 H2 H3 _ Hnd Hnp Hpart Hfree.
  download_present w d Hconv H1 H2 H3.
  destruct name as [|c name]; [done|]. cbn [String.length Nat.eqb].
  unfold bind, path_exists.
  assert (negb replace && exists_in w (dest_path E root (String c name)) = false)
    as -> by (destruct Hfree as [-> | ->]; [done | apply andb_false_r]).
  destruct (remote E d) as [b|] eqn:Hr.
  - by apply fetch_file_ok.
  - unfold _fetch_file. by rewrite Hr.
Qed.

Lemma download_fetches_file_witness :
  download_file E0 "https://example.org/f.csv" "old.csv" default_root false true w0
  = (Ok tt, mk_world (dirs w0) (<["/home/u/data/old.csv" := Bytes "a,b"]> (files w0))
                     ["https://example.org/f.csv"]).
Proof.
  apply (download_fetches_file E0 "https://example.org/f.csv" "old.csv"
           default_root true w0 "https://example.org/f.csv");
    try reflexivity; [discriminate | by left].
Defined.

Lemma tmpfile_dir (w : world) (home : string) :
  isdir_in w (home +:+ "/tmp/") = true ->
  isdir_in w (Path.dirname (home +:+ "/tmp/tmp")) = true.
Proof.
  intros H.
  replace (home +:+ "/tmp/tmp") with ((home +:+ "/tmp") +:+ "/" +:+ "tmp")
    by (by rewrite string_app_assoc).
  apply isdir_in_dirname_join; [done|].
  rewrite <- isdir_in_slash by (by destruct home).
  by rewrite string_app_assoc.
Qed.

(** X16. With [zipfile=True] the archive is first fetched to [~/tmp/tmp]
    (which is no directory, and next to which no partial download is left
    from before); when what was fetched is no archive, the call ends in
    the archive error and the temporary file stays behind, as it is only
    removed after the extraction. *)
Theorem download_bad_zip_leaves_tmp (E : env) (url name root : string)
    (replace : bool) (w : world) (d b : string) :
  _convert_url_to_downloadable url = Ok d ->
  isdir_in w (home_of E +:+ "/data/") = true ->
  isdir_in w (home_of E +:+ "/tmp/") = true ->
  isdir_in w (Path.dirname (dest_path E root name)) = true ->
  isdir_in w (home_of E +:+ "/tmp/tmp") = false ->
  isdir_in w (home_of E +:+ "/tmp/tmp" +:+ ".part") = false ->
  files w !! (home_of E +:+ "/tmp/tmp" +:+ ".part") = None ->
  remote E d = Some b ->
  archive E b = None ->
  download_file E url name root true replace w
  = (Raise BadZipFile,
     mk_world (dirs w) (<[home_of E +:+ "/tmp/tmp" := Bytes b]> (files w))
              (fetch_log w ++ [d])).
Proof.
  intros Hconv H1 H2 H3 Hnd Hnp Hpart Hr Ha. download_present w d Hconv H1 H2 H3.
  unfold bind at 1. rewrite <- !string_app_assoc in Hnp, Hpart.
  rewrite (fetch_file_ok E d _ b w Hr (tmpfile_dir w _ H2) Hnd Hnp Hpart).
  unfold bind, extract_zip.
  change (isdir_in (mk_world (dirs w) ?f ?l)) with (isdir_in w).
  rewrite Hnd. cbn [files]. by rewrite lookup_insert_eq, Ha.
Qed.

Lemma download_bad_zip_leaves_tmp_witness :
  download_file E0 "https://example.org/f.csv" "set1" default_root true false w0
  = (Raise BadZipFile,
     mk_world (dirs w0) (<["/home/u/tmp/tmp" := Bytes "a,b"]> (files w0))
              ["https://example.org/f.csv"]).
Proof.
  apply (download_bad_zip_leaves_tmp E0 "https://example.org/f.csv" "set1"
           default_root false w0 "https://example.org/f.csv" "a,b");
    reflexivity.
Defined.

(** With [zipfile=True] neither [replace] nor the state of the
    destination is looked at: the outcome and the world afterwards are the
    same for both values of [replace]. *)
Theorem download_zip_ignores_replace (E : env) (url name root : string)
    (r1 r2 : bool) (w : world) :
  download_file E url name root true r1 w = download_file E url name root true r2 w.
Proof. reflexivity. Qed.

(** ** More on [load_fmri_data] *)

Section LoadFmriMore.

Context {A : Type}.
Variable read_volume : string -> result (list (list A)).
Variable zscore : list (list A) -> list (list A).

Lemma load_loop_raises (dz : bool) (mask : option (list bool))
    (ok : list string) (arrs data : list (list (list A)))
    (f : string) (rest : list string) (e : exn) :
  Forall2 (fun f a => load_one read_volume zscore dz mask f = Ok a) ok arrs ->
  load_one read_volume zscore dz mask f = Raise e ->
  load_loop read_volume zscore dz mask (ok ++ f :: rest) data = Raise e.
Proof.
  intros H Hf. revert data. induction H as [|g a ok arrs Hg _ IH]; intros data.
  - cbn. by rewrite Hf.
  - cbn. rewrite Hg. cbn. apply IH.
Qed.

(** X18. A file that cannot be read makes the whole call fail with the
    reader's error, also when files before it were read: there is no
    partial result. *)
Theorem load_fmri_data_read_error (ok : list string) (vs : list (list (list A)))
    (f : string) (rest : list string) (e : exn) (dz : bool)
    (mask : option (list bool)) :
  Forall2 (fun f v => read_volume f = Ok v) ok vs ->
  (forall m, mask = Some m -> Forall (Forall (fun row => length row = length m)) vs) ->
  read_volume f = Raise e ->
  load_fmri_data read_volume zscore (ok ++ f :: rest) dz mask = Raise e.
Proof.
  intros Hok Hfit Hf. unfold load_fmri_data.
  rewrite (load_loop_raises dz mask ok (per_file zscore dz mask <$> vs) [] f rest e).
  - done.
  - by apply load_all_per_file.
  - unfold load_one. by rewrite Hf.
Qed.

Lemma select_length (m : list bool) (row : list A) :
  length row = length m ->
  length (select m row) = length (List.filter id m).
Proof.
  revert row. induction m as [|b m IH]; intros [|x row] Hlen; try done.
  cbn in *. destruct b; cbn; rewrite IH; lia.
Qed.

Lemma concat_fmap_fmap {B} (g : list A -> list B) (vs : list (list (list A))) :
  concat ((fun v : list (list A) => g <$> v) <$> vs) = g <$> concat vs.
Proof.
  induction vs as [|v vs IH]; [done|]. cbn. by rewrite fmap_app, IH.
Qed.

(** X19. Without standardisation, loading with a mask gives the masked
    time-points of what loading without a mask gives: masking each file and
    concatenating is masking the concatenation. *)
Theorem load_fmri_data_mask_commutes (files : list string)
    (vs : list (list (list A))) (m : list bool) :
  files <> [] ->
  Forall2 (fun f v => read_volume f = Ok v) files vs ->
  Forall (Forall (fun row => length row = length m)) vs ->
  load_fmri_data read_volume zscore files false None = Ok (concat vs)
  /\ load_fmri_data read_volume zscore files false (Some m)
     = Ok (select m <$> concat vs).
Proof.
  intros Hne Hread Hfit. unfold load_fmri_data.
  assert (Hvs : vs <> []) by (destruct Hread; [done | discriminate]).
  split.
  - rewrite (load_loop_appends _ _ false None files (per_file zscore false None <$> vs) []).
    + cbn. unfold per_file. cbn. rewrite list_fmap_id.
      by apply (vstack_concat (length m)).
    + by apply load_all_per_file.
  - rewrite (load_loop_appends _ _ false (Some m) files
               (per_file zscore false (Some m) <$> vs) []).
    + cbn. unfold per_file. cbn. rewrite <- concat_fmap_fmap.
      apply (vstack_concat (length (List.filter id m))).
      * by destruct vs.
      * apply Forall_fmap. eapply Forall_impl; [exact Hfit|].
        intros v Hv. apply Forall_fmap. eapply Forall_impl; [exact Hv|].
        intros row Hrow. by apply select_length.
    + apply load_all_per_file; [done|]. by intros m' [= <-].
Qed.

End LoadFmriMore.

Lemma load_fmri_data_read_error_witness :
  load_fmri_data read_volume0 centre0 ["run1.nii"; "run9.nii"; "run2.nii"] true None
  = Raise (FileNotFoundError "run9.nii").
Proof.
  apply (load_fmri_data_read_error read_volume0 centre0 ["run1.nii"]
           [[[1; 2; 3]; [3; 4; 5]]]%Z "run9.nii" ["run2.nii"]).
  - repeat constructor.
  - discriminate.
  - reflexivity.
Defined.

Lemma load_fmri_data_mask_commutes_witness :
  load_fmri_data read_volume0 centre0 ["run1.nii"; "run2.nii"] false None
  = Ok (concat [[[1; 2; 3]; [3; 4; 5]]; [[10; 20; 30]; [11; 22; 33]; [12; 24; 36]]])%Z
  /\ load_fmri_data read_volume0 centre0 ["run1.nii"; "run2.nii"] false
       (Some [true; false; true])
     = Ok (select [true; false; true] <$>
             concat [[[1; 2; 3]; [3; 4; 5]]; [[10; 20; 30]; [11; 22; 33]; [12; 24; 36]]])%Z.
Proof.
  apply (load_fmri_data_mask_commutes read_volume0 centre0 ["run1.nii"; "run2.nii"]).
  - discriminate.
  - repeat constructor.
  - repeat constructor.
Defined.

(** ** [load_eeg_data] *)

Section LoadEegFacts.

Context {A F T : Type}.
Variable read_raw : string -> result (@raw A F T).
Variable mean0 : list (list A) -> list A.
Variable sub : A -> A -> A.
Variable filter_data : list (list A) -> F -> F -> F -> list (list A).

Lemma length_drop_last2 (d : list (list A)) : length (drop_last2 d) = length d - 2.
Proof. unfold drop_last2. rewrite length_take. lia. Qed.

Lemma np_row_out_of_range (d : list (list A)) (i : Z) :
  ~ (- Z.of_nat (length d) <= i < Z.of_nat (length d))%Z ->
  np_row d i = Raise IndexError.
Proof.
  intros H. unfold np_row. cbv zeta.
  destruct (i <? 0)%Z eqn:Hneg;
    [apply Z.ltb_lt in Hneg | apply Z.ltb_ge in Hneg].
  - destruct (0 <=? i + Z.of_nat (length d))%Z eqn:H1; [|done].
    apply Z.leb_le in H1. lia.
  - destruct (0 <=? i)%Z; [|done]. cbn.
    destruct (i <? Z.of_nat (length d))%Z eqn:H2; [|done].
    apply Z.ltb_lt in H2. lia.
Qed.

Lemma np_row_in_range (d : list (list A)) (i : Z) :
  (- Z.of_nat (length d) <= i < Z.of_nat (length d))%Z ->
  exists r, np_row d i = Ok r.
Proof.
  intros H. unfold np_row. cbv zeta.
  set (j := if (i <? 0)%Z then (i + Z.of_nat (length d))%Z else i).
  assert (Hj : (0 <= j < Z.of_nat (length d))%Z)
    by (unfold j; destruct (i <? 0)%Z eqn:Hneg;
        [apply Z.ltb_lt in Hneg | apply Z.ltb_ge in Hneg]; lia).
  replace ((0 <=? j)%Z && (j <? Z.of_nat (length d))%Z) with true
    by (symmetry; apply andb_true_iff; split;
        [apply Z.leb_le | apply Z.ltb_lt]; lia).
  destruct (d !! Z.to_nat j) as [r|] eqn:Hr; [eauto|].
  apply lookup_ge_None in Hr. lia.
Qed.

Lemma np_row_error (d : list (list A)) (i : Z) (e : exn) :
  np_row d i = Raise e -> e = IndexError.
Proof.
  unfold np_row. cbv zeta.
  repeat match goal with
         | |- context [if ?b then _ else _] => destruct b
         | |- context [match ?x with Some _ => _ | None => _ end] => destruct x
         end; congruence.
Qed.

Lemma take_rows_bad_index (d : list (list A)) (idx : list Z) (i : Z) :
  i ∈ idx ->
  ~ (- Z.of_nat (length d) <= i < Z.of_nat (length d))%Z ->
  take_rows d idx = Raise IndexError.
Proof.
  intros Hin Hbad. induction idx as [|k idx IH]; [by apply elem_of_nil in Hin|].
  cbn [take_rows]. destruct (np_row d k) as [r|e] eqn:Hk.
  - cbn. apply elem_of_cons in Hin as [->|Hin].
    + by rewrite np_row_out_of_range in Hk.
    + by rewrite IH.
  - cbn. by rewrite (np_row_error _ _ _ Hk).
Qed.

Lemma take_rows_in_range (d : list (list A)) (idx : list Z) :
  Forall (fun i => (- Z.of_nat (length d) <= i < Z.of_nat (length d))%Z) idx ->
  exists rs, take_rows d idx = Ok rs.
Proof.
  induction 1 as [|i idx Hi _ [rs IH]]; [by exists []|].
  destruct (np_row_in_range d i Hi) as [r Hr].
  exists (r :: rs). cbn [take_rows]. by rewrite Hr, IH.
Qed.

(** X20. The reference indices are positions in the data after its last
    two channels were dropped: an index outside the remaining [n - 2]
    channels, counted from either end, makes the call fail with an
    [IndexError], also when the file has a channel of that number. *)
Theorem load_eeg_data_ref_out_of_range (fname : string) (r : @raw A F T)
    (idx : list Z) (i : Z) (fc : option (F * F)) (return_mne : bool) :
  read_raw fname = Ok r ->
  i ∈ idx ->
  ~ ref_in_range (length (raw_data r)) i ->
  load_eeg_data read_raw mean0 sub filter_data fname (Some idx) fc return_mne = Raise IndexError.
Proof.
  intros Hread Hin Hbad. unfold load_eeg_data. rewrite Hread. cbn.
  rewrite (take_rows_bad_index _ idx i Hin); [done|].
  by rewrite length_drop_last2.
Qed.

(** X21. When the reference indices are in range and the filter keeps the
    number of channels, the data that comes back has two channels less
    than the file, in either output format, while the channel names of the
    signal object are still those of the file. *)
Theorem load_eeg_data_channels (fname : string) (r : @raw A F T)
    (ref : option (list Z)) (fc : option (F * F)) (return_mne : bool) :
  read_raw fname = Ok r ->
  (forall idx, ref = Some idx -> Forall (ref_in_range (length (raw_data r))) idx) ->
  (forall d s lo hi, length (filter_data d s lo hi) = length d) ->
  exists o,
    load_eeg_data read_raw mean0 sub filter_data fname ref fc return_mne = Ok o
    /\ length (eeg_data o) = length (raw_data r) - 2
    /\ (forall r', o = EegRaw r' ->
          ch_names r' = ch_names r /\ raw_times r' = raw_times r
          /\ raw_sfreq r' = raw_sfreq r).
Proof.
  intros Hread Hidx Hfilter. unfold load_eeg_data. rewrite Hread. cbn [rbind].
  set (r0 := set_raw_data (drop_last2 (raw_data r)) r).
  assert (Hstep : exists r1,
             match ref with
             | Some idx =>
                 rbind (take_rows (raw_data r0) idx) (fun ref_electrodes =>
                 Ok (set_raw_data
                       ((fun row => zip_with sub row (mean0 ref_electrodes))
                          <$> raw_data r0) r0))
             | None => Ok r0
             end = Ok r1
             /\ length (raw_data r1) = length (raw_data r) - 2
             /\ ch_names r1 = ch_names r /\ raw_times r1 = raw_times r
             /\ raw_sfreq r1 = raw_sfreq r).
  { destruct ref as [idx|].
    - destruct (take_rows_in_range (raw_data r0) idx) as [rs Hrs].
      { cbn. rewrite length_drop_last2. by apply Hidx. }
      rewrite Hrs. cbn. eexists. split; [done|]. cbn.
      by rewrite length_fmap, length_drop_last2.
    - exists r0. cbn. by rewrite length_drop_last2. }
  destruct Hstep as (r1 & -> & Hlen & Hn & Ht & Hs). cbn [rbind].
  eexists. split; [done|].
  destruct fc as [[lo hi]|], return_mne; cbn; rewrite ?Hfilter;
    (split; [done|]); intros r' [= <-]; cbn; done.
Qed.

End LoadEegFacts.

Lemma load_eeg_data_ref_out_of_range_witness :
  load_eeg_data read_raw0 colsum0 Z.sub filter0 "s1.fif" (Some [0; 2]%Z) None true
  = Raise IndexError.
Proof.
  apply (load_eeg_data_ref_out_of_range read_raw0 colsum0 Z.sub filter0
           "s1.fif" raw0 [0; 2]%Z 2%Z).
  - reflexivity.
  - apply elem_of_cons. right. apply elem_of_cons. by left.
  - unfold ref_in_range. cbn. lia.
Defined.

Lemma load_eeg_data_channels_witness :
  exists o,
    load_eeg_data read_raw0 colsum0 Z.sub filter0 "s1.fif" (Some [0; -1]%Z)
      (Some (1, 12)%Z) true = Ok o
    /\ length (eeg_data o) = 4 - 2
    /\ (forall r', o = EegRaw r' ->
          ch_names r' = ["Fz"; "Cz"; "M1"; "M2"] /\ raw_times r' = [0; 4]%Z
          /\ raw_sfreq r' = 250%Z).
Proof.
  apply (load_eeg_data_channels read_raw0 colsum0 Z.sub filter0 "s1.fif" raw0).
  - reflexivity.
  - intros idx [= <-]. unfold ref_in_range. repeat constructor; cbn; lia.
  - reflexivity.
Defined.

Example load_eeg_data_run :
  load_eeg_data read_raw0 colsum0 Z.sub filter0 "s1.fif" (Some [0; -1]%Z) None false
  = Ok (EegArrays [0; 4]%Z [[-3; -4]; [-1; -2]]%Z).
Proof. reflexivity. Qed.

(** ** Downloads of archives *)

Section ZipFacts.

Variable key : string * string -> string.

Lemma extract_lookup_other (members : list (string * string))
    (fs : gmap string fcontent) (p : string) :
  p ∉ key <$> members ->
  foldl (fun fs m => <[key m := Bytes m.2]> fs) fs members !! p = fs !! p.
Proof.
  revert fs. induction members as [|x l IH]; intros fs Hnin; [done|].
  cbn in *. apply not_elem_of_cons in Hnin as [Hne Hnin].
  rewrite IH by done. by apply lookup_insert_ne.
Qed.

Lemma extract_lookup_member (members : list (string * string))
    (fs : gmap string fcontent) (m : string * string) :
  NoDup (key <$> members) -> m ∈ members ->
  foldl (fun fs m => <[key m := Bytes m.2]> fs) fs members !! key m
  = Some (Bytes m.2).
Proof.
  revert fs. induction members as [|x l IH]; intros fs Hnd Hin.
  - by apply elem_of_nil in Hin.
  - cbn in *. apply NoDup_cons in Hnd as [Hx Hnd].
    apply elem_of_cons in Hin as [->|Hin]; [|by apply IH].
    rewrite extract_lookup_other by done. apply lookup_insert_eq.
Qed.

End ZipFacts.

(** A file member whose directory is there is written to its target. *)
Lemma extract_member_file (out_path : string) (m : string * string) (w : world) :
  is_dir_member m.1 = false ->
  isdir_in w (Path.dirname (zip_target out_path m.1)) = true ->
  isdir_in w (zip_target out_path m.1) = false ->
  extract_member out_path m w
  = (Ok tt, mk_world (dirs w) (<[zip_target out_path m.1 := Bytes m.2]> (files w))
                     (fetch_log w)).
Proof.
  intros Hfile Hup Hnd.
  unfold extract_member, bind, path_exists, exists_in, ret, write_bytes, open_error.
  cbv zeta. rewrite Hup. cbn [orb negb]. rewrite andb_false_r, Hfile.
  cbv beta iota. by rewrite Hnd, Hup, orb_true_r.
Qed.

Lemma extract_members_files (out_path : string) (members : list (string * string))
    (w : world) :
  Forall (fun m => is_dir_member m.1 = false
                   /\ isdir_in w (Path.dirname (zip_target out_path m.1)) = true
                   /\ isdir_in w (zip_target out_path m.1) = false) members ->
  extract_members out_path members w
  = (Ok tt, mk_world (dirs w)
              (foldl (fun fs m => <[zip_target out_path m.1 := Bytes m.2]> fs)
                     (files w) members)
              (fetch_log w)).
Proof.
  destruct w as [ds fs lg]. revert fs.
  induction members as [|m members IH]; intros fs Hall; [done|].
  apply Forall_cons in Hall as [(Hfile & Hup & Hnd) Hall].
  cbn [extract_members].
  rewrite (bind_ok _ _ _ _ _ (extract_member_file out_path m _ Hfile Hup Hnd)).
  cbn [dirs files fetch_log foldl]. rewrite IH; [done | exact Hall].
Qed.

(** X17. With [zipfile=True], folders in place, a temporary file that is
    no directory and has no partial download next to it, and a URL that
    serves an archive of file members whose targets are different plain
    paths, none of them a directory or the temporary file, in directories
    that are there: the call succeeds whatever [replace] is, whether or
    not the destination holds files already and also for an empty name.  Every
    member is afterwards found with its content at its target, the
    destination joined with the member's name without its empty, [.] and
    [..] segments, where it replaces a file that was there, and the
    temporary file is gone. *)
Theorem download_zip_extracts (E : env) (url name root : string) (replace : bool)
    (w : world) (d b : string) (members : list (string * string)) :
  _convert_url_to_downloadable url = Ok d ->
  isdir_in w (home_of E +:+ "/data/") = true ->
  isdir_in w (home_of E +:+ "/tmp/") = true ->
  isdir_in w (Path.dirname (dest_path E root name)) = true ->
  Path.canonb (home_of E +:+ "/tmp/tmp") = true ->
  isdir_in w (home_of E +:+ "/tmp/tmp") = false ->
  isdir_in w (home_of E +:+ "/tmp/tmp" +:+ ".part") = false ->
  files w !! (home_of E +:+ "/tmp/tmp" +:+ ".part") = None ->
  remote E d = Some b ->
  archive E b = Some members ->
  Forall (fun m => Path.canonb (zip_target (dest_path E root name) m.1) = true)
         members ->
  Forall (fun m => is_dir_member m.1 = false
                   /\ isdir_in w (Path.dirname (zip_target (dest_path E root name) m.1))
                      = true
                   /\ isdir_in w (zip_target (dest_path E root name) m.1) = false)
         members ->
  NoDup ((fun m => zip_target (dest_path E root name) m.1) <$> members) ->
  home_of E +:+ "/tmp/tmp"
    ∉ (fun m => zip_target (dest_path E root name) m.1) <$> members ->
  exists w',
    download_file E url name root true replace w = (Ok tt, w')
    /\ files w' !! (home_of E +:+ "/tmp/tmp") = None
    /\ fetch_log w' = fetch_log w ++ [d]
    /\ dirs w' = dirs w
    /\ forall m, m ∈ members ->
         files w' !! zip_target (dest_path E root name) m.1 = Some (Bytes m.2).
Proof.
  intros Hconv H1 H2 H3 _ Hnd Hnp Hpart Hr Ha _ Hall Hdup Htmp.
  download_present w d Hconv H1 H2 H3.
  unfold bind at 1. rewrite <- !string_app_assoc in Hnp, Hpart.
  rewrite (fetch_file_ok E d _ b w Hr (tmpfile_dir w _ H2) Hnd Hnp Hpart).
  unfold bind at 1, extract_zip.
  change (isdir_in (mk_world (dirs w) ?f ?l)) with (isdir_in w).
  rewrite Hnd. cbn [files]. rewrite lookup_insert_eq, Ha.
  rewrite extract_members_files by exact Hall.
  unfold remove_file. cbn [files dirs fetch_log].
  rewrite (extract_lookup_other _ members _ _ Htmp), lookup_insert_eq.
  eexists. split; [reflexivity|]. cbn [files fetch_log dirs].
  split; [apply lookup_delete_eq|]. split; [done|]. split; [done|].
  intros m Hm. rewrite lookup_delete_ne.
  - by apply (extract_lookup_member (fun m => zip_target (dest_path E root name) m.1)).
  - intros Heq. apply Htmp. rewrite Heq.
    by apply (list_elem_of_fmap_2 (fun m => zip_target (dest_path E root name) m.1)).
Qed.

Lemma download_zip_extracts_witness :
  exists w',
    download_file E1 "https://www.dropbox.com/s/k1/set1.zip" "" default_root true false w0
    = (Ok tt, w')
    /\ files w' !! (home_of E1 +:+ "/tmp/tmp") = None
    /\ fetch_log w' = fetch_log w0 ++ ["https://dl.dropboxusercontent.com/s/k1/set1.zip"]
    /\ dirs w' = dirs w0
    /\ forall m, m ∈ [("old.csv", "p,q"); ("/../up.csv", "u,v")] ->
         files w' !! zip_target (dest_path E1 default_root "") m.1 = Some (Bytes m.2).
Proof.
  apply (download_zip_extracts E1 "https://www.dropbox.com/s/k1/set1.zip" ""
           default_root false w0 "https://dl.dropboxusercontent.com/s/k1/set1.zip"
           "PK"); try reflexivity.
  - repeat constructor.
  - repeat constructor.
  - apply (bool_decide_unpack _). vm_compute. exact I.
  - apply (bool_decide_unpack _). vm_compute. exact I.
Defined.

Example zip_target_stays_below :
  zip_target "/home/u/data/set1" "/etc/cron.d/x" = "/home/u/data/set1/etc/cron.d/x"
  /\ zip_target "/home/u/data/set1" "../../.bashrc" = "/home/u/data/set1/.bashrc"
  /\ zip_target "/home/u/data/" "eeg/s1.fif" = "/home/u/data/eeg/s1.fif"
  /\ is_dir_member "eeg/" = true.
Proof. repeat split; reflexivity. Qed.

Example extract_makes_directories :
  (extract_members "/home/u/data/set1" [("eeg/", ""); ("eeg/s1.fif", "raw")] w0).2
  = mk_world ({["/home/u/data/set1"; "/home/u/data/set1/eeg"]} ∪ dirs w0)
             (<["/home/u/data/set1/eeg/s1.fif" := Bytes "raw"]> (files w0)) [].
Proof. vm_compute. reflexivity. Qed.

Example normpath_ex :
  Path.normpath "/a/./b/../c/" = "/a/c"
  /\ Path.normpath "" = "."
  /\ Path.normpath "a/../.." = ".."
  /\ Path.normpath "/.." = "/"
  /\ Path.normpath "//a//b" = "//a/b"
  /\ Path.normpath "///a" = "/a".
Proof. repeat split; reflexivity. Qed.

Example expanduser_named :
  Path.expanduser E0 "~root/data/old.csv" = "/root/data/old.csv"
  /\ Path.expanduser E0 "~bob/data" = "~bob/data".
Proof. split; reflexivity. Qed.

(** [os.makedirs] below a regular file, and over one. *)
Example makedirs_below_file :
  makedirs "/home/u/data/old.csv/sub" w0
  = (Raise (NotADirectoryError "/home/u/data/old.csv/sub"), w0)
  /\ makedirs "/home/u/data/old.csv/" w0
     = (Raise (FileExistsError "/home/u/data/old.csv/"), w0).
Proof. split; vm_compute; reflexivity. Qed.

(** A download onto a directory ends up inside it. *)
Example fetch_into_directory :
  files (_fetch_file E0 "https://example.org/f.csv" "/home/u/data" w0).2
    !! "/home/u/data/data.part" = Some (Bytes "a,b").
Proof. vm_compute. reflexivity. Qed.
